(** * bluehex2: the session and credential lifecycle of [AuthController]

    A shallow embedding of [app/models/user.py] and
    [app/controllers/auth_controller.py].  The three SQL tables are lists of
    rows in insertion order; a controller method is a function of the store
    that yields either a value or a raised exception together with the store
    as committed when the method leaves.  What the source draws from its
    environment (the clock, [secrets.token_urlsafe], [bcrypt.gensalt], the
    outcome of the mail provider) is an argument of the method. *)

From Stdlib Require Import ZArith List Ascii String Bool Lia.
Import ListNotations.

#[local] Open Scope Z_scope.
#[local] Open Scope string_scope.
#[local] Open Scope list_scope.

Set Implicit Arguments.

(** ** Data model ([app/models/user.py]) *)

(** [datetime]: microseconds since the epoch.  One reading per call stands
    for every reading of the clock that the call makes. *)
Definition datetime := Z.

(** [timedelta(hours=h)]. *)
Definition timedelta_hours (h : Z) : Z := h * 3600 * 1000000.

Inductive PhoneCountry := au | ph.

(** What a controller method can raise. *)
Inductive exn :=
| ValueError (msg : string)      (* raised by [create_user] *)
| ValidationError                (* pydantic: a field constraint is violated *)
| MultipleResultsFound           (* [scalar_one_or_none] on several rows *)
| IntegrityError.                (* a UNIQUE constraint rejects an INSERT *)

(** [Field(max_length=n)] on a [str] field. *)
Definition max_length (n : nat) (s : string) : bool :=
  (String.length s <=? n)%nat.

Module UserRole.
Inductive t := user | admin.
End UserRole.

(** [class User(UserBase, table=True)]; [id] is the primary key the store
    assigned to the row. *)
Module User.
Record t := mk {
  id : Z;
  email : string;
  phone_country : option PhoneCountry;
  phone_number : option string;
  is_active : bool;
  is_admin : bool;
  role : UserRole.t;
  first_name : string;
  last_name : string;
  hashed_password : string;
  created_at : datetime;
  updated_at : datetime
}.
End User.

(** [class UserCreate(SQLModel)]: no length limit is declared here. *)
Module UserCreate.
Record t := mk {
  email : string;
  first_name : string;
  last_name : string;
  password : string;
  phone_country : PhoneCountry;
  phone_number : string;
  role : option UserRole.t
}.
End UserCreate.

(** [class UserResponse(UserBase)]: the public view.  It has no
    [hashed_password] field. *)
Module UserResponse.
Record t := mk {
  email : string;
  phone_country : option PhoneCountry;
  phone_number : option string;
  is_active : bool;
  is_admin : bool;
  role : UserRole.t;
  first_name : string;
  last_name : string;
  id : Z;
  created_at : datetime;
  updated_at : option datetime
}.

(** The attributes of a row that the view reads ([from_attributes]). *)
Definition from_attributes (u : User.t) : t :=
  mk (User.email u) (User.phone_country u) (User.phone_number u)
     (User.is_active u) (User.is_admin u) (User.role u)
     (User.first_name u) (User.last_name u) (User.id u)
     (User.created_at u) (Some (User.updated_at u)).

(** The field constraints of [UserBase]: [max_length=20] on
    [phone_number], [max_length=100] on [first_name] and [last_name]. *)
Definition constraints (u : User.t) : bool :=
  (match User.phone_number u with
   | Some p => max_length 20 p
   | None => true
   end)
  && max_length 100 (User.first_name u)
  && max_length 100 (User.last_name u).

(** [UserResponse.model_validate(user)]: reads the attributes of the row
    and validates them.  The table class [User] is never validated, so
    the limits of [UserBase] are first checked here. *)
Definition model_validate (u : User.t) : exn + t :=
  if constraints u then inr (from_attributes u) else inl ValidationError.
End UserResponse.

(** [class Session(SQLModel, table=True)]. *)
Module Session.
Record t := mk {
  id : Z;
  token : string;
  user_id : Z;
  created_at : datetime;
  expires_at : datetime
}.
End Session.

(** [class SessionResponse(SQLModel)]. *)
Module SessionResponse.
Record t := mk {
  id : Z;
  token : string;
  user_id : Z;
  created_at : datetime;
  expires_at : datetime;
  user : UserResponse.t
}.

(** [SessionResponse(id=..., ..., user=user)]: the field [user] is
    required, so [None] is rejected. *)
Definition init (s : Session.t) (u : option UserResponse.t) : exn + t :=
  match u with
  | Some v => inr (mk (Session.id s) (Session.token s) (Session.user_id s)
                     (Session.created_at s) (Session.expires_at s) v)
  | None => inl ValidationError
  end.
End SessionResponse.

(** [class PasswordResetToken(SQLModel, table=True)]. *)
Module PasswordResetToken.
Record t := mk {
  id : Z;
  token : string;
  user_id : Z;
  created_at : datetime;
  expires_at : datetime;
  is_used : bool
}.
End PasswordResetToken.

(** The persisted state: the tables [user], [session] and
    [passwordresettoken]. *)
Record DB := mkDB {
  users : list User.t;
  sessions : list Session.t;
  reset_tokens : list PasswordResetToken.t
}.

Definition empty_db : DB := mkDB [] [] [].

(** ** The controller monad *)

(** A method runs on the committed store and leaves with a value or an
    exception.  The store is returned in both cases: what was committed
    before an exception was raised stays committed. *)
Definition M (A : Type) : Type := DB -> (exn + A) * DB.

Definition ret {A} (a : A) : M A := fun db => (inr a, db).

Definition raise {A} (e : exn) : M A := fun db => (inl e, db).

Definition bind {A B} (m : M A) (k : A -> M B) : M B :=
  fun db =>
    match m db with
    | (inl e, db') => (inl e, db')
    | (inr a, db') => k a db'
    end.

(** A pure computation that may raise. *)
Definition lift {A} (r : exn + A) : M A := fun db => (r, db).

Declare Scope ctl_scope.
Delimit Scope ctl_scope with ctl.
Notation "x <- m ;; k" := (bind m (fun x => k))
  (at level 61, m at next level, right associativity) : ctl_scope.
Notation "m ;;; k" := (bind m (fun _ => k))
  (at level 61, right associativity) : ctl_scope.
#[local] Open Scope ctl_scope.

(** The value and the store a run leaves. *)
Definition outcome {A} (r : (exn + A) * DB) : exn + A := fst r.
Definition store {A} (r : (exn + A) * DB) : DB := snd r.

(** ** Store primitives (SQLAlchemy / SQLite) *)

(** [select(T).where(p)], executed. *)
Definition select_users (p : User.t -> bool) : M (list User.t) :=
  fun db => (inr (filter p (users db)), db).

Definition select_sessions (p : Session.t -> bool) : M (list Session.t) :=
  fun db => (inr (filter p (sessions db)), db).

Definition select_reset_tokens (p : PasswordResetToken.t -> bool)
  : M (list PasswordResetToken.t) :=
  fun db => (inr (filter p (reset_tokens db)), db).

(** [result.scalar_one_or_none()]. *)
Definition scalar_one_or_none {A} (rows : list A) : M (option A) :=
  match rows with
  | [] => ret None
  | [r] => ret (Some r)
  | _ :: _ :: _ => raise MultipleResultsFound
  end.

(** The rowid SQLite gives to a new row: one more than the largest in the
    table, 1 in an empty table. *)
Definition next_id (ids : list Z) : Z := fold_right Z.max 0 ids + 1.

(** [session.add(row); commit(); refresh(row)] for each table.  The row is
    built from the key the store assigns; a clash on a [unique=True] column
    rejects the INSERT and nothing is persisted. *)
Definition add_user (row : Z -> User.t) : M User.t :=
  fun db =>
    let r := row (next_id (map User.id (users db))) in
    if existsb (fun u => User.email u =? User.email r) (users db)
    then (inl IntegrityError, db)
    else (inr r, mkDB (users db ++ [r]) (sessions db) (reset_tokens db)).

Definition add_session (row : Z -> Session.t) : M Session.t :=
  fun db =>
    let r := row (next_id (map Session.id (sessions db))) in
    if existsb (fun s => Session.token s =? Session.token r) (sessions db)
    then (inl IntegrityError, db)
    else (inr r, mkDB (users db) (sessions db ++ [r]) (reset_tokens db)).

Definition add_reset_token (row : Z -> PasswordResetToken.t)
  : M PasswordResetToken.t :=
  fun db =>
    let r := row (next_id (map PasswordResetToken.id (reset_tokens db))) in
    if existsb (fun x => PasswordResetToken.token x =? PasswordResetToken.token r)
         (reset_tokens db)
    then (inl IntegrityError, db)
    else (inr r, mkDB (users db) (sessions db) (reset_tokens db ++ [r])).

(** [session.delete(row)], flushed as DELETE ... WHERE id = ?. *)
Definition delete_row (s : Session.t) : M unit :=
  fun db =>
    (inr tt,
     mkDB (users db)
          (filter (fun r => negb (Session.id r =? Session.id s)%Z) (sessions db))
          (reset_tokens db)).

Fixpoint delete_rows (rows : list Session.t) : M unit :=
  match rows with
  | [] => ret tt
  | s :: rest => delete_row s ;;; delete_rows rest
  end.

(** The UPDATE of a [User] whose [hashed_password] attribute was assigned:
    the column is written, and [onupdate=func.now()] stamps [updated_at],
    when the assigned value differs from the loaded one; an assignment of
    the same value flushes nothing. *)
Definition assign_hashed_password (now : datetime) (h : string) (u : User.t)
  : User.t :=
  if User.hashed_password u =? h then u
  else User.mk (User.id u) (User.email u) (User.phone_country u)
         (User.phone_number u) (User.is_active u) (User.is_admin u)
         (User.role u) (User.first_name u) (User.last_name u)
         h (User.created_at u) now.

Definition mark_used (r : PasswordResetToken.t) : PasswordResetToken.t :=
  PasswordResetToken.mk (PasswordResetToken.id r) (PasswordResetToken.token r)
    (PasswordResetToken.user_id r) (PasswordResetToken.created_at r)
    (PasswordResetToken.expires_at r) true.

(** The one commit of [reset_password]: both pending UPDATEs, each by
    primary key, in one transaction. *)
Definition commit_reset (now : datetime) (u : User.t) (h : string)
    (r : PasswordResetToken.t) : M unit :=
  fun db =>
    (inr tt,
     mkDB (map (fun x => if (User.id x =? User.id u)%Z
                         then assign_hashed_password now h x else x)
               (users db))
          (sessions db)
          (map (fun x => if (PasswordResetToken.id x =? PasswordResetToken.id r)%Z
                         then mark_used x else x)
               (reset_tokens db))).

(** ** Collaborators outside the repository *)

(** [bcrypt]: [hashpw password salt] and [checkpw password hashed]. *)
Class Hasher := {
  hashpw : string -> string -> string;
  checkpw : string -> string -> bool
}.

(** [EmailService]: every [send_*] method catches what the provider raises
    and returns whether the mail went out; [ok] is that outcome. *)
Definition send_welcome_email (ok : bool) (to_email first_name : string)
  : M bool := ret ok.
Definition send_password_reset_email (ok : bool)
    (to_email first_name reset_token : string) : M bool := ret ok.
Definition send_password_reset_confirmation (ok : bool)
    (to_email first_name : string) : M bool := ret ok.

(** ** [AuthController] ([app/controllers/auth_controller.py]) *)

Section AuthController.
Context {bcrypt : Hasher}.

(** [hash_password(password)], with the salt [bcrypt.gensalt()] drew. *)
Definition hash_password (salt password : string) : string :=
  hashpw password salt.

Definition verify_password (password hashed_password : string) : bool :=
  checkpw password hashed_password.

Definition get_user_by_email (email : string) : M (option UserResponse.t) :=
  rows <- select_users (fun u => User.email u =? email) ;;
  user <- scalar_one_or_none rows ;;
  match user with
  | Some u => v <- lift (UserResponse.model_validate u) ;; ret (Some v)
  | None => ret None
  end.

Definition get_user_by_id (user_id : Z) : M (option UserResponse.t) :=
  rows <- select_users (fun u => (User.id u =? user_id)%Z) ;;
  user <- scalar_one_or_none rows ;;
  match user with
  | Some u => v <- lift (UserResponse.model_validate u) ;; ret (Some v)
  | None => ret None
  end.

Definition create_user (now : datetime) (salt : string) (mail_ok : bool)
    (user_data : UserCreate.t) : M UserResponse.t :=
  existing_user <- get_user_by_email (UserCreate.email user_data) ;;
  match existing_user with
  | Some _ => raise (ValueError "Email already registered")
  | None =>
      let hashed_password := hash_password salt (UserCreate.password user_data) in
      db_user <- add_user (fun id =>
        User.mk id
          (UserCreate.email user_data)
          (Some (UserCreate.phone_country user_data))
          (Some (UserCreate.phone_number user_data))
          true
          false
          (match UserCreate.role user_data with
           | Some r => r
           | None => UserRole.user
           end)
          (UserCreate.first_name user_data)
          (UserCreate.last_name user_data)
          hashed_password
          now now) ;;
      send_welcome_email mail_ok (User.email db_user) (User.first_name db_user) ;;;
      lift (UserResponse.model_validate db_user)
  end.

Definition authenticate_user (email password : string)
  : M (option UserResponse.t) :=
  rows <- select_users (fun u => User.email u =? email) ;;
  user <- scalar_one_or_none rows ;;
  match user with
  | None => ret None
  | Some u =>
      if negb (verify_password password (User.hashed_password u))
      then ret None
      else v <- lift (UserResponse.model_validate u) ;; ret (Some v)
  end.

Definition create_session (now : datetime) (token : string) (user_id : Z)
  : M SessionResponse.t :=
  let expires_at := now + timedelta_hours 24 in
  db_session <- add_session (fun id =>
    Session.mk id token user_id now expires_at) ;;
  user <- get_user_by_id user_id ;;
  lift (SessionResponse.init db_session user).

Definition get_session_by_token (now : datetime) (token : string)
  : M (option SessionResponse.t) :=
  rows <- select_sessions (fun s =>
    (Session.token s =? token) && (now <? Session.expires_at s)%Z) ;;
  session <- scalar_one_or_none rows ;;
  match session with
  | None => ret None
  | Some s =>
      user <- get_user_by_id (Session.user_id s) ;;
      match user with
      | None => ret None
      | Some _ => r <- lift (SessionResponse.init s user) ;; ret (Some r)
      end
  end.

Definition delete_session (token : string) : M bool :=
  rows <- select_sessions (fun s => Session.token s =? token) ;;
  session <- scalar_one_or_none rows ;;
  match session with
  | None => ret false
  | Some s => delete_row s ;;; ret true
  end.

Definition cleanup_expired_sessions (now : datetime) : M Z :=
  expired_sessions <- select_sessions (fun s =>
    (Session.expires_at s <=? now)%Z) ;;
  let count := Z.of_nat (List.length expired_sessions) in
  delete_rows expired_sessions ;;;
  ret count.

Definition create_password_reset_token (now : datetime) (token : string)
    (mail_ok : bool) (email : string) : M bool :=
  user <- get_user_by_email email ;;
  match user with
  | None => ret false
  | Some u =>
      let expires_at := now + timedelta_hours 1 in
      add_reset_token (fun id =>
        PasswordResetToken.mk id token (UserResponse.id u) now expires_at
          false) ;;;
      email_sent <- send_password_reset_email mail_ok (UserResponse.email u)
                      (UserResponse.first_name u) token ;;
      if email_sent then ret true else ret true
  end.

Definition reset_password (now : datetime) (salt : string) (mail_ok : bool)
    (token new_password : string) : M bool :=
  rows <- select_reset_tokens (fun r =>
    (PasswordResetToken.token r =? token)
    && (now <? PasswordResetToken.expires_at r)%Z
    && Bool.eqb (PasswordResetToken.is_used r) false) ;;
  reset_token <- scalar_one_or_none rows ;;
  match reset_token with
  | None => ret false
  | Some r =>
      urows <- select_users (fun u =>
        (User.id u =? PasswordResetToken.user_id r)%Z) ;;
      user <- scalar_one_or_none urows ;;
      match user with
      | None => ret false
      | Some u =>
          commit_reset now u (hash_password salt new_password) r ;;;
          send_password_reset_confirmation mail_ok (User.email u)
            (User.first_name u) ;;;
          ret true
      end
  end.

End AuthController.

(** ** Well-formed stores *)

(** The keys the schema declares: primary keys, and the [unique=True]
    columns [user.email], [session.token] and [passwordresettoken.token]. *)
Record unique_keys (db : DB) : Prop := {
  uk_user_id : NoDup (map User.id (users db));
  uk_user_email : NoDup (map User.email (users db));
  uk_session_id : NoDup (map Session.id (sessions db));
  uk_session_token : NoDup (map Session.token (sessions db));
  uk_reset_id : NoDup (map PasswordResetToken.id (reset_tokens db));
  uk_reset_token : NoDup (map PasswordResetToken.token (reset_tokens db))
}.

(** Every stored identity respects the field limits of [UserBase]. *)
Definition valid_rows (db : DB) : Prop :=
  Forall (fun u => UserResponse.constraints u = true) (users db).

Definition wf (db : DB) : Prop := unique_keys db /\ valid_rows db.

(** ** Derived rows, invariants and histories *)

(** [preserves P m]: whatever [m] returns or raises, the store it leaves
    satisfies [P] when the store it started from did. *)
Definition preserves {A} (P : DB -> Prop) (m : M A) : Prop :=
  forall db, P db -> P (store (m db)).

(** One call of a lifecycle method, with what it draws from its
    environment. *)
Inductive call :=
| CreateUser (now : datetime) (salt : string) (mail_ok : bool)
    (user_data : UserCreate.t)
| AuthenticateUser (email password : string)
| CreateSession (now : datetime) (token : string) (user_id : Z)
| GetSessionByToken (now : datetime) (token : string)
| DeleteSession (token : string)
| CleanupExpiredSessions (now : datetime)
| CreatePasswordResetToken (now : datetime) (token : string) (mail_ok : bool)
    (email : string)
| ResetPassword (now : datetime) (salt : string) (mail_ok : bool)
    (token new_password : string).

(** The store a call leaves, whether it returned or raised. *)
Definition exec {bcrypt : Hasher} (c : call) (db : DB) : DB :=
  match c with
  | CreateUser now salt ok d => store (create_user now salt ok d db)
  | AuthenticateUser e p => store (authenticate_user e p db)
  | CreateSession now tok uid => store (create_session now tok uid db)
  | GetSessionByToken now tok => store (get_session_by_token now tok db)
  | DeleteSession tok => store (delete_session tok db)
  | CleanupExpiredSessions now => store (cleanup_expired_sessions now db)
  | CreatePasswordResetToken now tok ok e =>
      store (create_password_reset_token now tok ok e db)
  | ResetPassword now salt ok tok pw =>
      store (reset_password now salt ok tok pw db)
  end.

Definition exec_all {bcrypt : Hasher} (calls : list call) (db : DB) : DB :=
  fold_left (fun d c => exec c d) calls db.

(** A reset token [T] that is stored and already consumed, or expired at
    the instant [at_]. *)
Definition spent (T : string) (at_ : datetime) (db : DB) : Prop :=
  exists r, In r (reset_tokens db)
            /\ PasswordResetToken.token r = T
            /\ (PasswordResetToken.is_used r = true
                \/ PasswordResetToken.expires_at r <= at_).

(** The WHERE clause of [reset_password]. *)
Definition redeemable (now : datetime) (token : string)
    (r : PasswordResetToken.t) : bool :=
  (PasswordResetToken.token r =? token)
  && (now <? PasswordResetToken.expires_at r)%Z
  && Bool.eqb (PasswordResetToken.is_used r) false.

(** The store after a successful reset of [u]'s credential through the
    token row [r]. *)
Definition after_reset (now : datetime) (h : string) (u : User.t)
    (r : PasswordResetToken.t) (db : DB) : DB :=
  mkDB (map (fun x => if (User.id x =? User.id u)%Z
                      then assign_hashed_password now h x else x)
            (users db))
       (sessions db)
       (map (fun x => if (PasswordResetToken.id x =? PasswordResetToken.id r)%Z
                      then mark_used x else x)
            (reset_tokens db)).

(** The WHERE clause of [get_session_by_token]. *)
Definition live (now : datetime) (token : string) (s : Session.t) : bool :=
  (Session.token s =? token) && (now <? Session.expires_at s)%Z.

(** The response built from a session row and its identity. *)
Definition joined (s : Session.t) (u : User.t) : SessionResponse.t :=
  SessionResponse.mk (Session.id s) (Session.token s) (Session.user_id s)
    (Session.created_at s) (Session.expires_at s)
    (UserResponse.from_attributes u).

(** The row [create_session] inserts. *)
Definition new_session (now : datetime) (token : string) (user_id : Z)
    (db : DB) : Session.t :=
  Session.mk (next_id (map Session.id (sessions db))) token user_id now
    (now + timedelta_hours 24).

(** The row [create_password_reset_token] inserts for the identity
    [user_id]. *)
Definition new_reset_token (now : datetime) (token : string) (user_id : Z)
    (db : DB) : PasswordResetToken.t :=
  PasswordResetToken.mk
    (next_id (map PasswordResetToken.id (reset_tokens db)))
    token user_id now (now + timedelta_hours 1) false.

(** The row [create_user] inserts. *)
Definition new_user (now : datetime) (hashed_password : string)
    (user_data : UserCreate.t) (db : DB) : User.t :=
  User.mk (next_id (map User.id (users db)))
    (UserCreate.email user_data)
    (Some (UserCreate.phone_country user_data))
    (Some (UserCreate.phone_number user_data))
    true false
    (match UserCreate.role user_data with
     | Some r => r
     | None => UserRole.user
     end)
    (UserCreate.first_name user_data)
    (UserCreate.last_name user_data)
    hashed_password now now.

(** The store after the row [s] is deleted. *)
Definition without_session (s : Session.t) (db : DB) : DB :=
  mkDB (users db)
       (filter (fun r => negb (Session.id r =? Session.id s)%Z) (sessions db))
       (reset_tokens db).







(** ** The HTTP layer ([app/utils/auth.py], [app/routes/auth_routes.py]) *)

(** A character of the model is a code point below 256.  [str.isspace] on
    these: tab to carriage return, the four separators 28 to 31, the space,
    NEL (133) and the no-break space (160). *)
Definition isspace (c : ascii) : bool :=
  let n := nat_of_ascii c in
  ((9 <=? n) && (n <=? 13) || (28 <=? n) && (n <=? 32)
   || (n =? 133) || (n =? 160))%nat.

Fixpoint lstrip_chars (l : list ascii) : list ascii :=
  match l with
  | c :: rest => if isspace c then lstrip_chars rest else l
  | [] => []
  end.

(** [s.strip()]. *)
Definition strip (s : string) : string :=
  string_of_list_ascii
    (rev (lstrip_chars (rev (lstrip_chars (list_ascii_of_string s))))).

(** [PhoneCountry(value)]: the member with that value, or [ValueError]. *)
Definition PhoneCountry_of_value (v : string) : exn + PhoneCountry :=
  if v =? "au" then inr au
  else if v =? "ph" then inr ph
  else inl (ValueError ("'" ++ v ++ "' is not a valid PhoneCountry")%string).

(** [d.get(key)] on a mapping given as its list of items. *)
Fixpoint dict_get (key : string) (d : list (string * string)) : option string :=
  match d with
  | [] => None
  | (k, v) :: rest => if k =? key then Some v else dict_get key rest
  end.

(** What the routes read of a [Request]. *)
Record Request := mkRequest {
  cookies : list (string * string);
  query_params : list (string * string)
}.

(** A value of a template context. *)
Inductive value :=
| VRequest
| VNone
| VStr (s : string)
| VBool (b : bool)
| VStrOf (e : exn).          (* [str(e)] of an exception without own text *)

(** [str(e)]: the message of a [ValueError] raised with one. *)
Definition str_exn (e : exn) : value :=
  match e with
  | ValueError msg => VStr msg
  | _ => VStrOf e
  end.

(** [except ValueError]: pydantic's [ValidationError] derives from
    [ValueError]; SQLAlchemy's errors do not. *)
Definition is_ValueError (e : exn) : bool :=
  match e with
  | ValueError _ | ValidationError => true
  | MultipleResultsFound | IntegrityError => false
  end.

(** The arguments of [response.set_cookie]. *)
Record Cookie := mkCookie {
  cookie_key : string;
  cookie_value : string;
  httponly : bool;
  secure : bool;
  samesite : string;
  max_age : Z
}.

Inductive Response :=
| TemplateResponse (name : string) (context : list (string * value))
| RedirectResponse (url : string) (status_code : Z)
    (set_cookie : option Cookie) (delete_cookie : option string).

(** [try: body except Exception as e: handler(e)]: what the body committed
    before it raised stays committed. *)
Definition try_except {A} (body : M A) (handler : exn -> M A) : M A :=
  fun db =>
    match body db with
    | (inl e, db') => handler e db'
    | (inr a, db') => (inr a, db')
    end.

(** [EmailService.send_login_notification]: as the other [send_*]. *)
Definition email_send_login_notification (ok : bool)
    (to_email first_name : string) (login_time : datetime) : M bool := ret ok.

(** [AuthController.send_login_notification]. *)
Definition send_login_notification (now : datetime) (mail_ok : bool)
    (user : UserResponse.t) : M unit :=
  let login_time := now in
  email_send_login_notification mail_ok (UserResponse.email user)
    (UserResponse.first_name user) login_time ;;;
  ret tt.

(** The cookie [login] and [signup] set. *)
Definition session_cookie (token : string) : Cookie :=
  mkCookie "session_token" token true false "lax" 86400.

Section Routes.
Context {bcrypt : Hasher}.

(** [get_current_user_from_request] ([app/utils/auth.py]). *)
Definition get_current_user_from_request (now : datetime) (request : Request)
  : M (option UserResponse.t) :=
  match dict_get "session_token" (cookies request) with
  | None => ret None
  | Some session_token =>
      if session_token =? "" then ret None
      else
        try_except
          (session_response <- get_session_by_token now session_token ;;
           match session_response with
           | Some sr => ret (Some (SessionResponse.user sr))
           | None => ret None
           end)
          (fun _ => ret None)
  end.

(** [POST /login]. *)
Definition login (now : datetime) (token : string) (mail_ok : bool)
    (request : Request) (email password : string) : M Response :=
  try_except
    (user <- authenticate_user email password ;;
     match user with
     | None =>
         ret (TemplateResponse "login.html"
                [("request", VRequest);
                 ("error", VStr "Invalid email or password")])
     | Some u =>
         session_response <- create_session now token (UserResponse.id u) ;;
         send_login_notification now mail_ok u ;;;
         ret (RedirectResponse "/" 302
                (Some (session_cookie (SessionResponse.token session_response)))
                None)
     end)
    (fun e =>
       ret (TemplateResponse "login.html"
              [("request", VRequest);
               ("error", VStr "An error occurred. Please try again.")])).

(** [POST /signup]; [now] is the clock of [create_user], [now'] that of
    [create_session]. *)
Definition signup (now now' : datetime) (salt : string) (mail_ok : bool)
    (token : string) (request : Request)
    (email first_name last_name password confirm_password
       phone_country phone_number : string) : M Response :=
  try_except
    (if negb (password =? confirm_password)
     then ret (TemplateResponse "signup.html"
                 [("request", VRequest);
                  ("error", VStr "Passwords do not match. Please try again.")])
     else
       match PhoneCountry_of_value phone_country with
       | inl _ =>
           ret (TemplateResponse "signup.html"
                  [("request", VRequest);
                   ("error", VStr "Invalid country selected. Please try again.")])
       | inr phone_country_enum =>
           let user_data :=
             UserCreate.mk (strip email) (strip first_name) (strip last_name)
               password phone_country_enum (strip phone_number)
               (Some UserRole.user) in
           user <- create_user now salt mail_ok user_data ;;
           session_response <- create_session now' token (UserResponse.id user) ;;
           ret (RedirectResponse "/" 302
                  (Some (session_cookie (SessionResponse.token session_response)))
                  None)
       end)
    (fun e =>
       if is_ValueError e
       then ret (TemplateResponse "signup.html"
                   [("request", VRequest); ("error", str_exn e)])
       else ret (TemplateResponse "signup.html"
                   [("request", VRequest);
                    ("error", VStr "An error occurred. Please try again.")])).

(** [GET /logout]: the route has no handler of its own, so what
    [delete_session] raises leaves the route. *)
Definition logout (request : Request) : M Response :=
  match dict_get "session_token" (cookies request) with
  | None => ret tt
  | Some session_token =>
      if session_token =? "" then ret tt
      else delete_session session_token ;;; ret tt
  end ;;;
  ret (RedirectResponse "/" 302 None (Some "session_token")).

(** [POST /forgot-password]. *)
Definition forgot_password (now : datetime) (token : string) (mail_ok : bool)
    (request : Request) (email : string) : M Response :=
  try_except
    (success <- create_password_reset_token now token mail_ok email ;;
     ret (TemplateResponse "forgot-password.html"
            [("request", VRequest);
             ("success",
              VStr "If an account with that email exists, we've sent you a password reset link.")]))
    (fun e =>
       ret (TemplateResponse "forgot-password.html"
              [("request", VRequest);
               ("error", VStr "An error occurred. Please try again.")])).

(** [POST /reset-password]. *)
Definition reset_password_route (now : datetime) (salt : string)
    (mail_ok : bool) (request : Request)
    (token new_password confirm_password : string) : M Response :=
  try_except
    (if negb (new_password =? confirm_password)
     then ret (TemplateResponse "reset-password.html"
                 [("request", VRequest); ("token", VStr token);
                  ("error", VStr "Passwords do not match.")])
     else if (String.length new_password <? 8)%nat
     then ret (TemplateResponse "reset-password.html"
                 [("request", VRequest); ("token", VStr token);
                  ("error", VStr "Password must be at least 8 characters long.")])
     else
       success <- reset_password now salt mail_ok token new_password ;;
       if success : bool
       then ret (TemplateResponse "reset-password.html"
                   [("request", VRequest);
                    ("success",
                     VStr "Password reset successfully! You can now log in with your new password.")])
       else ret (TemplateResponse "reset-password.html"
                   [("request", VRequest); ("token", VStr token);
                    ("error",
                     VStr "Invalid or expired reset token. Please request a new password reset.")]))
    (fun e =>
       ret (TemplateResponse "reset-password.html"
              [("request", VRequest); ("token", VStr token);
               ("error", VStr "An error occurred. Please try again.")])).

End Routes.

(** ** [reset_password] at its awaits *)

Section ResetPhases.
Context {bcrypt : Hasher}.

(** What [reset_password] reads before it writes (lines 197 to 217): the
    redeemable token row and the identity that owns it. *)
Definition reset_password_read (now : datetime) (token : string)
  : M (option (PasswordResetToken.t * User.t)) :=
  rows <- select_reset_tokens (fun r =>
    (PasswordResetToken.token r =? token)
    && (now <? PasswordResetToken.expires_at r)%Z
    && Bool.eqb (PasswordResetToken.is_used r) false) ;;
  reset_token <- scalar_one_or_none rows ;;
  match reset_token with
  | None => ret None
  | Some r =>
      urows <- select_users (fun u =>
        (User.id u =? PasswordResetToken.user_id r)%Z) ;;
      user <- scalar_one_or_none urows ;;
      match user with
      | None => ret None
      | Some u => ret (Some (r, u))
      end
  end.

(** What it does with the rows it read (lines 219 to 230): both UPDATEs
    by primary key in one commit, then the mail. *)
Definition reset_password_write (now : datetime) (salt : string)
    (mail_ok : bool) (new_password : string)
    (read : option (PasswordResetToken.t * User.t)) : M bool :=
  match read with
  | None => ret false
  | Some (r, u) =>
      commit_reset now u (hash_password salt new_password) r ;;;
      send_password_reset_confirmation mail_ok (User.email u)
        (User.first_name u) ;;;
      ret true
  end.

(** Two calls with the same token, each on a session of its own, that
    overlap: both have read when the first commits. *)
Definition reset_password_overlapped (token : string)
    (now_a : datetime) (salt_a : string) (mail_a : bool) (password_a : string)
    (now_b : datetime) (salt_b : string) (mail_b : bool) (password_b : string)
  : M (bool * bool) :=
  read_a <- reset_password_read now_a token ;;
  read_b <- reset_password_read now_b token ;;
  done_a <- reset_password_write now_a salt_a mail_a password_a read_a ;;
  done_b <- reset_password_write now_b salt_b mail_b password_b read_b ;;
  ret (done_a, done_b).

End ResetPhases.

(** ** Pages and rows that stay *)

(** The page of a successful reset. *)
Definition reset_done : Response :=
  TemplateResponse "reset-password.html"
    [("request", VRequest);
     ("success",
      VStr "Password reset successfully! You can now log in with your new password.")].

(** [u'] is [u] but for the credential and the update stamp. *)
Definition same_profile (u u' : User.t) : Prop :=
  User.id u' = User.id u
  /\ User.email u' = User.email u
  /\ User.phone_country u' = User.phone_country u
  /\ User.phone_number u' = User.phone_number u
  /\ User.is_active u' = User.is_active u
  /\ User.is_admin u' = User.is_admin u
  /\ User.role u' = User.role u
  /\ User.first_name u' = User.first_name u
  /\ User.last_name u' = User.last_name u
  /\ User.created_at u' = User.created_at u.

(** [r'] is [r], possibly consumed since. *)
Definition same_token (r r' : PasswordResetToken.t) : Prop :=
  PasswordResetToken.id r' = PasswordResetToken.id r
  /\ PasswordResetToken.token r' = PasswordResetToken.token r
  /\ PasswordResetToken.user_id r' = PasswordResetToken.user_id r
  /\ PasswordResetToken.created_at r' = PasswordResetToken.created_at r
  /\ PasswordResetToken.expires_at r' = PasswordResetToken.expires_at r
  /\ (PasswordResetToken.is_used r = true ->
      PasswordResetToken.is_used r' = true).

Definition keeps_identity (u : User.t) (db : DB) : Prop :=
  exists u', In u' (users db) /\ same_profile u u'.

Definition keeps_reset_token (r : PasswordResetToken.t) (db : DB) : Prop :=
  exists r', In r' (reset_tokens db) /\ same_token r r'.

(** ** Concrete stores *)

(** A stand-in for bcrypt, used to run the model on concrete stores: the
    hash is the salt cut or padded to four characters, then the password. *)
Definition plain_hasher : Hasher := {|
  hashpw := fun password salt =>
    (substring 0 4 (salt ++ "....") ++ password)%string;
  checkpw := fun password hashed =>
    substring 4 (String.length hashed - 4)%nat hashed =? password
|}.

Definition alice : UserCreate.t :=
  UserCreate.mk "alice@example.com" "Alice" "Liddell" "pw12345678" au
    "0412345678" None.

Definition alice_row : User.t :=
  User.mk 1 "alice@example.com" (Some au) (Some "0412345678") true false
    UserRole.user "Alice" "Liddell" "s1..pw12345678" 1000 1000.

Definition db_alice : DB := mkDB [alice_row] [] [].

(** A signup whose phone number has 21 characters. *)
Definition bob : UserCreate.t :=
  UserCreate.mk "bob@example.com" "Bob" "Stone" "pw12345678" au
    "012345678901234567890" None.

(** A store in which a session refers to no identity: the one
    [create_session] leaves when it is called with an unknown [user_id]
    (the INSERT is committed before the join fails). *)
Definition db_orphan : DB :=
  mkDB [] [Session.mk 1 "tok" 42 1000 (1000 + timedelta_hours 24)] [].

(** A session that expired long ago and was never swept. *)
Definition stale_session : Session.t := Session.mk 1 "tok" 1 0 1000.

Definition db_stale : DB := mkDB [alice_row] [stale_session] [].

(** [alice] with a session issued at instant 1000. *)
Definition db_session : DB :=
  mkDB [alice_row] [Session.mk 1 "tok" 1 1000 (1000 + timedelta_hours 24)] [].

(** An identity that was deactivated, with a reset token of its own. *)
Definition carol_row : User.t :=
  User.mk 1 "carol@example.com" (Some ph) (Some "09171234567") false false
    UserRole.user "Carol" "Reyes" "s2..pw12345678" 1000 1000.

Definition carol_token : PasswordResetToken.t :=
  PasswordResetToken.mk 1 "T" 1 2000 (2000 + timedelta_hours 1) false.

Definition db_carol : DB := mkDB [carol_row] [] [carol_token].

(** A history that asks for a reset with the token [T] again. *)
Definition later_calls : list call :=
  [CreatePasswordResetToken 3000 "T" true "carol@example.com";
   DeleteSession "tok";
   CleanupExpiredSessions 4000].

(** The store the registration of [bob] leaves: his identity, with the
    phone number of 21 characters. *)
Definition bob_row : User.t :=
  new_user 1000 (@hash_password plain_hasher "s1" "pw12345678") bob empty_db.

Definition db_bob : DB := mkDB [bob_row] [] [].

(** A signup with blanks around its fields. *)
Definition dora : UserCreate.t :=
  UserCreate.mk "dora@example.com" "Dora" "Vale" "pw12345678" ph
    "09181234567" (Some UserRole.user).

(** A request that bears the session cookie [tok]. *)
Definition req_tok : Request := mkRequest [("session_token", "tok")] [].

(** A request without cookies. *)
Definition req_plain : Request := mkRequest [] [].

(** ** A concrete run of the scenario *)

(** X1. The scenario of the specification, run on the model with
    [plain_hasher]: register alice, authenticate with the right and with a
    wrong password, create a session and resolve it, sweep before the
    expiry, request a reset, consume the token, authenticate with the old
    and with the new password, and consume the token again. *)
Example scenario_alice :
  let H := plain_hasher in
  let db1 := store (create_user 1000 "s1" true alice empty_db) in
  let db2 := store (create_session 2000 "tok" 1 db1) in
  let db3 := store (create_password_reset_token 4000 "T" true
                      "alice@example.com" db2) in
  let db4 := store (reset_password 5000 "s2" true "T" "newpass1234" db3) in
  create_user 1000 "s1" true alice empty_db
  = (inr (UserResponse.from_attributes alice_row), db_alice)
  /\ outcome (authenticate_user "alice@example.com" "pw12345678" db1)
     = inr (Some (UserResponse.from_attributes alice_row))
  /\ outcome (authenticate_user "alice@example.com" "wrongpw" db1) = inr None
  /\ outcome (create_session 2000 "tok" 1 db1)
     = inr (joined (new_session 2000 "tok" 1 db1) alice_row)
  /\ outcome (get_session_by_token 3000 "tok" db2)
     = inr (Some (joined (new_session 2000 "tok" 1 db1) alice_row))
  /\ cleanup_expired_sessions 3000 db2 = (inr 0, db2)
  /\ outcome (create_password_reset_token 4000 "T" true "alice@example.com" db2)
     = inr true
  /\ reset_tokens db3
     = [PasswordResetToken.mk 1 "T" 1 4000 (4000 + timedelta_hours 1) false]
  /\ outcome (reset_password 5000 "s2" true "T" "newpass1234" db3) = inr true
  /\ outcome (authenticate_user "alice@example.com" "pw12345678" db4)
     = inr None
  /\ (exists v,
        outcome (authenticate_user "alice@example.com" "newpass1234" db4)
        = inr (Some v))
  /\ reset_password 6000 "s3" true "T" "again12345" db4 = (inr false, db4).
Proof.
  cbv zeta. repeat split; try reflexivity.
  eexists. reflexivity.
Qed.

(** ** Rows selected by a key *)

Section KeyedRows.
Variables (A K : Type) (key : A -> K).

Lemma key_injective (l : list A) (x y : A) :
  NoDup (map key l) -> In x l -> In y l -> key x = key y -> x = y.
Proof.
  induction l as [|a l IH]; simpl; [tauto|].
  intros Hnd Hx Hy Hk. inversion Hnd as [|? ? Hnotin Hnd']; subst.
  destruct Hx as [<-|Hx], Hy as [<-|Hy]; auto.
  - exfalso. apply Hnotin. rewrite Hk. now apply in_map.
  - exfalso. apply Hnotin. rewrite <- Hk. now apply in_map.
Qed.

(** A predicate that pins the key selects no row of the tail once the
    head carries that key. *)
Lemma filter_tail_empty (p : A -> bool) (k : K) (a : A) (l : list A) :
  NoDup (map key (a :: l)) -> key a = k ->
  (forall y, p y = true -> key y = k) -> filter p l = [].
Proof.
  intros Hnd Ha Hp. inversion Hnd as [|? ? Hnotin _]; subst.
  destruct (filter p l) as [|y ys] eqn:E; [reflexivity|].
  assert (Hy : In y (filter p l)) by (rewrite E; now left).
  apply filter_In in Hy as [Hin Hpy].
  exfalso. apply Hnotin. rewrite <- (Hp y Hpy). now apply in_map.
Qed.

(** On a unique key, [scalar_one_or_none] never sees two rows: it is the
    first match. *)
Lemma scalar_of_key (p : A -> bool) (k : K) (l : list A) :
  NoDup (map key l) -> (forall y, p y = true -> key y = k) ->
  scalar_one_or_none (filter p l) = ret (find p l).
Proof.
  intros Hnd Hp. induction l as [|a l IH]; [reflexivity|].
  simpl. destruct (p a) eqn:Ea.
  - rewrite (@filter_tail_empty p k a l Hnd (Hp a Ea) Hp). reflexivity.
  - apply IH. now inversion Hnd.
Qed.

Lemma find_of_key (p : A -> bool) (l : list A) (x : A) :
  NoDup (map key l) -> (forall y, p y = true -> key y = key x) ->
  In x l -> p x = true -> find p l = Some x.
Proof.
  intros Hnd Hp Hin Hpx.
  destruct (find p l) as [y|] eqn:E.
  - apply find_some in E as [Hy Hpy].
    f_equal. apply (key_injective l); auto.
  - rewrite (find_none _ _ E x Hin) in Hpx. discriminate.
Qed.

Lemma NoDup_map_filter (p : A -> bool) (l : list A) :
  NoDup (map key l) -> NoDup (map key (filter p l)).
Proof.
  induction l as [|a l IH]; simpl; intros Hnd; [constructor|].
  inversion Hnd as [|? ? Hnotin Hnd']; subst.
  destruct (p a); simpl; auto.
  constructor; auto.
  intros Hin. apply Hnotin.
  apply in_map_iff in Hin as (y & Hk & Hy).
  apply filter_In in Hy as [Hy _].
  rewrite <- Hk. now apply in_map.
Qed.

Lemma NoDup_map_snoc (l : list A) (r : A) :
  NoDup (map key l) -> ~ In (key r) (map key l) ->
  NoDup (map key (l ++ [r])).
Proof.
  intros Hnd Hnotin. rewrite map_app. simpl.
  apply NoDup_app; auto.
  - apply NoDup_cons; [intros []|constructor].
  - intros k Hk [<-|[]]. contradiction.
Qed.

Lemma map_key_preserved (g : A -> A) (l : list A) :
  (forall x, key (g x) = key x) -> map key (map g l) = map key l.
Proof.
  intros Hg. rewrite map_map. apply map_ext. exact Hg.
Qed.
End KeyedRows.

Lemma next_id_bound (ids : list Z) (x : Z) : In x ids -> x < next_id ids.
Proof.
  unfold next_id. induction ids as [|a ids IH]; simpl; [tauto|].
  intros [<-|Hin]; [lia|]. specialize (IH Hin). lia.
Qed.

Lemma next_id_fresh (ids : list Z) : ~ In (next_id ids) ids.
Proof.
  intros Hin. apply next_id_bound in Hin. lia.
Qed.

Lemma existsb_string_key (A : Type) (key : A -> string) (k : string)
    (l : list A) :
  existsb (fun x => key x =? k) l = false -> ~ In k (map key l).
Proof.
  intros Hex Hin. apply in_map_iff in Hin as (x & Hk & Hx).
  assert (Ht : existsb (fun x => key x =? k) l = true).
  { apply existsb_exists. exists x. split; auto. now apply String.eqb_eq. }
  congruence.
Qed.

Lemma find_absent (A : Type) (p : A -> bool) (l : list A) :
  (forall x, In x l -> p x = false) -> find p l = None.
Proof.
  intros H. destruct (find p l) as [y|] eqn:E; [|reflexivity].
  apply find_some in E as [Hy Hp]. rewrite (H y Hy) in Hp. discriminate.
Qed.

Lemma filter_filter (A : Type) (p q : A -> bool) (l : list A) :
  filter q (filter p l) = filter (fun x => p x && q x) l.
Proof.
  induction l as [|a l IH]; simpl; [reflexivity|].
  destruct (p a); simpl; [destruct (q a)|]; now rewrite IH.
Qed.

(** ** Session termination and the sweep *)

Section Sessions.
Context {bcrypt : Hasher}.

Lemma session_by_token (token : string) (db : DB) :
  unique_keys db ->
  (rows <- select_sessions (fun s => Session.token s =? token) ;;
   scalar_one_or_none rows) db
  = (inr (find (fun s => Session.token s =? token) (sessions db)), db).
Proof.
  intros Huk. unfold bind, select_sessions.
  rewrite (@scalar_of_key _ _ Session.token _ token).
  - reflexivity.
  - apply Huk.
  - intros y Hy. now apply String.eqb_eq.
Qed.

Lemma delete_session_run (token : string) (db : DB) :
  unique_keys db ->
  delete_session token db
  = match find (fun s => Session.token s =? token) (sessions db) with
    | None => (inr false, db)
    | Some s => (inr true, store (delete_row s db))
    end.
Proof.
  intros Huk. unfold delete_session.
  change (bind ?m ?k db) with (bind m k db).
  pose proof (session_by_token token Huk) as E.
  unfold bind in E |- *.
  destruct (select_sessions _ db) as [[e|rows] db0] eqn:Es.
  - unfold select_sessions in Es. discriminate.
  - rewrite E. destruct (find _ (sessions db)); reflexivity.
Qed.

Lemma delete_rows_run (rows : list Session.t) (db : DB) :
  delete_rows rows db
  = (inr tt,
     mkDB (users db)
          (filter (fun r => negb (existsb (fun s => (Session.id r =? Session.id s)%Z) rows))
                  (sessions db))
          (reset_tokens db)).
Proof.
  revert db. induction rows as [|s rows IH]; intros db.
  - simpl. unfold ret. destruct db as [us ss rs]; simpl.
    f_equal. f_equal.
    induction ss as [|a ss IHs]; simpl; [reflexivity|]. now rewrite <- IHs.
  - simpl. unfold bind, delete_row. rewrite IH. simpl.
    rewrite filter_filter. f_equal. f_equal.
    apply filter_ext. intros r. now rewrite negb_orb.
Qed.

Lemma expired_id_test (now : datetime) (l : list Session.t) (r : Session.t) :
  NoDup (map Session.id l) -> In r l ->
  existsb (fun s => (Session.id r =? Session.id s)%Z)
          (filter (fun s => (Session.expires_at s <=? now)%Z) l)
  = (Session.expires_at r <=? now)%Z.
Proof.
  intros Hnd Hr.
  destruct (Session.expires_at r <=? now)%Z eqn:E.
  - apply existsb_exists. exists r. split.
    + apply filter_In. auto.
    + apply Z.eqb_refl.
  - destruct (existsb _ _) eqn:Ex; [|reflexivity].
    apply existsb_exists in Ex as (s & Hs & Hid).
    apply filter_In in Hs as [Hs Hexp].
    apply Z.eqb_eq in Hid.
    rewrite (key_injective Session.id l r s Hnd Hr Hs Hid) in E. congruence.
Qed.

Lemma cleanup_expired_sessions_run (now : datetime) (db : DB) :
  unique_keys db ->
  cleanup_expired_sessions now db
  = (inr (Z.of_nat (List.length
            (filter (fun s => (Session.expires_at s <=? now)%Z) (sessions db)))),
     mkDB (users db)
          (filter (fun s => (now <? Session.expires_at s)%Z) (sessions db))
          (reset_tokens db)).
Proof.
  intros Huk. unfold cleanup_expired_sessions, bind, select_sessions.
  rewrite delete_rows_run. unfold ret. f_equal. f_equal.
  apply filter_ext_in. intros r Hr.
  rewrite (expired_id_test now (sessions db) r (uk_session_id Huk) Hr).
  rewrite Z.ltb_antisym. reflexivity.
Qed.

(** C9. The sweep removes exactly the sessions whose expiry is at or
    before the current time and returns how many it removed; the sessions
    that expire later, the identities and the reset tokens are left as
    they were. *)
Theorem cleanup_expired_sessions_exact (now : datetime) (db : DB)
    (Huk : unique_keys db) :
  let r := cleanup_expired_sessions now db in
  sessions (store r)
    = filter (fun s => (now <? Session.expires_at s)%Z) (sessions db)
  /\ (forall s, In s (sessions (store r))
                <-> In s (sessions db) /\ now < Session.expires_at s)
  /\ users (store r) = users db
  /\ reset_tokens (store r) = reset_tokens db
  /\ outcome r
     = inr (Z.of_nat (List.length
              (filter (fun s => (Session.expires_at s <=? now)%Z) (sessions db))))
  /\ outcome r
     = inr (Z.of_nat (List.length (sessions db))
            - Z.of_nat (List.length (sessions (store r)))).
Proof.
  intros r. subst r. rewrite (cleanup_expired_sessions_run now Huk).
  unfold store, outcome. simpl.
  split; [reflexivity|]. split; [|repeat (split; [reflexivity|])].
  - intros s. rewrite filter_In, Z.ltb_lt. tauto.
  - f_equal.
    assert (Hlen : forall l : list Session.t,
               (List.length (filter (fun s => (Session.expires_at s <=? now)%Z) l)
                + List.length (filter (fun s => (now <? Session.expires_at s)%Z) l)
                = List.length l)%nat).
    { induction l as [|a l IH]; simpl; [reflexivity|].
      rewrite Z.ltb_antisym.
      destruct (Session.expires_at a <=? now)%Z; simpl; lia. }
    specialize (Hlen (sessions db)). lia.
Qed.
End Sessions.

(** ** Store invariants along a method *)

Section Preservation.
Variable P : DB -> Prop.

Lemma preserves_ret A (a : A) : preserves P (ret a).
Proof. intros db H. exact H. Qed.

Lemma preserves_raise A (e : exn) : preserves P (@raise A e).
Proof. intros db H. exact H. Qed.

Lemma preserves_lift A (r : exn + A) : preserves P (lift r).
Proof. intros db H. exact H. Qed.

Lemma preserves_bind A B (m : M A) (k : A -> M B) :
  preserves P m -> (forall a, preserves P (k a)) -> preserves P (bind m k).
Proof.
  intros Hm Hk db H. specialize (Hm db H).
  unfold bind, store in *. destruct (m db) as [[e|a] db']; simpl in *.
  - exact Hm.
  - apply (Hk a db' Hm).
Qed.

Lemma preserves_select_users p : preserves P (select_users p).
Proof. intros db H. exact H. Qed.

Lemma preserves_select_sessions p : preserves P (select_sessions p).
Proof. intros db H. exact H. Qed.

Lemma preserves_select_reset_tokens p : preserves P (select_reset_tokens p).
Proof. intros db H. exact H. Qed.

Lemma preserves_scalar A (rows : list A) : preserves P (scalar_one_or_none rows).
Proof. intros db H. destruct rows as [|? [|? ?]]; exact H. Qed.

Lemma preserves_send_welcome ok a b : preserves P (send_welcome_email ok a b).
Proof. intros db H. exact H. Qed.

Lemma preserves_send_reset ok a b c :
  preserves P (send_password_reset_email ok a b c).
Proof. intros db H. exact H. Qed.

Lemma preserves_send_confirmation ok a b :
  preserves P (send_password_reset_confirmation ok a b).
Proof. intros db H. exact H. Qed.

Lemma preserves_delete_rows rows :
  (forall s, preserves P (delete_row s)) -> preserves P (delete_rows rows).
Proof.
  intros Hd. induction rows as [|s rows IH]; simpl.
  - apply preserves_ret.
  - apply preserves_bind; auto.
Qed.
End Preservation.

Create HintDb preserves.

#[local] Hint Resolve preserves_ret preserves_raise preserves_lift
  preserves_select_users preserves_select_sessions
  preserves_select_reset_tokens preserves_scalar preserves_send_welcome
  preserves_send_reset preserves_send_confirmation : preserves.

(** Reduces "the method preserves [P]" to "its writes preserve [P]". *)
Ltac preserves_steps :=
  repeat first
    [ apply preserves_bind; [|intros ?]
    | progress auto with preserves
    | match goal with
      | |- preserves _ (match ?x with _ => _ end) => destruct x
      | |- preserves _ (if ?x then _ else _) => destruct x
      end ].

Section Lifecycle.
Context {bcrypt : Hasher}.
Variable P : DB -> Prop.
Hypothesis P_add_user : forall row,
  (forall n, User.id (row n) = n) -> preserves P (add_user row).
Hypothesis P_add_session : forall row,
  (forall n, Session.id (row n) = n) -> preserves P (add_session row).
Hypothesis P_add_reset_token : forall row,
  (forall n, PasswordResetToken.id (row n) = n) ->
  preserves P (add_reset_token row).
Hypothesis P_delete_row : forall s, preserves P (delete_row s).
Hypothesis P_commit_reset :
  forall now u h r, preserves P (commit_reset now u h r).

Lemma preserves_get_user_by_email email : preserves P (get_user_by_email email).
Proof. unfold get_user_by_email. preserves_steps. Qed.

Lemma preserves_get_user_by_id uid : preserves P (get_user_by_id uid).
Proof. unfold get_user_by_id. preserves_steps. Qed.

Lemma preserves_create_user now salt ok d : preserves P (create_user now salt ok d).
Proof.
  unfold create_user.
  apply preserves_bind; [apply preserves_get_user_by_email|intros [v|]].
  - auto with preserves.
  - preserves_steps.
Qed.

Lemma preserves_authenticate_user e p : preserves P (authenticate_user e p).
Proof. unfold authenticate_user. preserves_steps. Qed.

Lemma preserves_create_session now tok uid :
  preserves P (create_session now tok uid).
Proof.
  unfold create_session.
  apply preserves_bind; [now apply P_add_session|intros s].
  apply preserves_bind; [apply preserves_get_user_by_id|intros u].
  auto with preserves.
Qed.

Lemma preserves_get_session_by_token now tok :
  preserves P (get_session_by_token now tok).
Proof.
  unfold get_session_by_token.
  apply preserves_bind; [auto with preserves|intros rows].
  apply preserves_bind; [auto with preserves|intros [s|]]; [|auto with preserves].
  apply preserves_bind; [apply preserves_get_user_by_id|intros [v|]];
    preserves_steps.
Qed.

Lemma preserves_delete_session tok : preserves P (delete_session tok).
Proof. unfold delete_session. preserves_steps. Qed.

Lemma preserves_cleanup now : preserves P (cleanup_expired_sessions now).
Proof.
  unfold cleanup_expired_sessions. preserves_steps.
  apply preserves_delete_rows. exact P_delete_row.
Qed.

Lemma preserves_create_password_reset_token now tok ok email :
  preserves P (create_password_reset_token now tok ok email).
Proof.
  unfold create_password_reset_token.
  apply preserves_bind; [apply preserves_get_user_by_email|intros [v|]].
  - preserves_steps.
  - auto with preserves.
Qed.

Lemma preserves_reset_password now salt ok tok pw :
  preserves P (reset_password now salt ok tok pw).
Proof. unfold reset_password. preserves_steps. Qed.
End Lifecycle.

(** ** The declared keys stay unique *)

Lemma unique_keys_add_user row :
  (forall n, User.id (row n) = n) -> preserves unique_keys (add_user row).
Proof.
  intros Hid db [H1 H2 H3 H4 H5 H6]. unfold add_user, store.
  destruct (existsb _ (users db)) eqn:E; simpl; [now constructor|].
  constructor; simpl; auto.
  - apply NoDup_map_snoc; auto. rewrite Hid. apply next_id_fresh.
  - apply NoDup_map_snoc; auto.
    apply existsb_string_key with (key := User.email). exact E.
Qed.

Lemma unique_keys_add_session row :
  (forall n, Session.id (row n) = n) -> preserves unique_keys (add_session row).
Proof.
  intros Hid db [H1 H2 H3 H4 H5 H6]. unfold add_session, store.
  destruct (existsb _ (sessions db)) eqn:E; simpl; [now constructor|].
  constructor; simpl; auto.
  - apply NoDup_map_snoc; auto. rewrite Hid. apply next_id_fresh.
  - apply NoDup_map_snoc; auto.
    apply existsb_string_key with (key := Session.token). exact E.
Qed.

Lemma unique_keys_add_reset_token row :
  (forall n, PasswordResetToken.id (row n) = n) ->
  preserves unique_keys (add_reset_token row).
Proof.
  intros Hid db [H1 H2 H3 H4 H5 H6]. unfold add_reset_token, store.
  destruct (existsb _ (reset_tokens db)) eqn:E; simpl; [now constructor|].
  constructor; simpl; auto.
  - apply NoDup_map_snoc; auto. rewrite Hid. apply next_id_fresh.
  - apply NoDup_map_snoc; auto.
    apply existsb_string_key with (key := PasswordResetToken.token). exact E.
Qed.

Lemma unique_keys_delete_row s : preserves unique_keys (delete_row s).
Proof.
  intros db [H1 H2 H3 H4 H5 H6]. unfold delete_row, store. simpl.
  constructor; simpl; auto using NoDup_map_filter.
Qed.

Lemma assign_hashed_password_keys now h u :
  User.id (assign_hashed_password now h u) = User.id u
  /\ User.email (assign_hashed_password now h u) = User.email u.
Proof.
  unfold assign_hashed_password.
  destruct (User.hashed_password u =? h); auto.
Qed.

Lemma unique_keys_commit_reset now u h r :
  preserves unique_keys (commit_reset now u h r).
Proof.
  intros db [H1 H2 H3 H4 H5 H6]. unfold commit_reset, store. simpl.
  constructor; simpl; auto.
  - rewrite map_key_preserved; auto.
    intros x. destruct (User.id x =? User.id u)%Z; auto.
    apply assign_hashed_password_keys.
  - rewrite map_key_preserved; auto.
    intros x. destruct (User.id x =? User.id u)%Z; auto.
    apply assign_hashed_password_keys.
  - rewrite map_key_preserved; auto.
    intros x. now destruct (PasswordResetToken.id x =? PasswordResetToken.id r)%Z.
  - rewrite map_key_preserved; auto.
    intros x. now destruct (PasswordResetToken.id x =? PasswordResetToken.id r)%Z.
Qed.

(** ** Histories of calls *)

Section Histories.
Context {bcrypt : Hasher}.
Variable P : DB -> Prop.
Hypothesis P_add_user : forall row,
  (forall n, User.id (row n) = n) -> preserves P (add_user row).
Hypothesis P_add_session : forall row,
  (forall n, Session.id (row n) = n) -> preserves P (add_session row).
Hypothesis P_add_reset_token : forall row,
  (forall n, PasswordResetToken.id (row n) = n) ->
  preserves P (add_reset_token row).
Hypothesis P_delete_row : forall s, preserves P (delete_row s).
Hypothesis P_commit_reset :
  forall now u h r, preserves P (commit_reset now u h r).

(** An invariant of the five writes is an invariant of every call. *)
Lemma exec_invariant (c : call) (db : DB) : P db -> P (exec c db).
Proof.
  destruct c; simpl.
  - now apply preserves_create_user.
  - now apply preserves_authenticate_user.
  - now apply preserves_create_session.
  - now apply preserves_get_session_by_token.
  - now apply preserves_delete_session.
  - now apply preserves_cleanup.
  - now apply preserves_create_password_reset_token.
  - now apply preserves_reset_password.
Qed.

Lemma exec_all_invariant (calls : list call) (db : DB) :
  P db -> P (exec_all calls db).
Proof.
  revert db. induction calls as [|c calls IH]; intros db H; simpl; auto.
  apply IH. now apply exec_invariant.
Qed.
End Histories.

Lemma unique_keys_exec_all {bcrypt : Hasher} (calls : list call) (db : DB) :
  unique_keys db -> unique_keys (exec_all calls db).
Proof.
  apply exec_all_invariant.
  - exact unique_keys_add_user.
  - exact unique_keys_add_session.
  - exact unique_keys_add_reset_token.
  - exact unique_keys_delete_row.
  - exact unique_keys_commit_reset.
Qed.

(** ** Reset tokens are single-use *)

Lemma spent_commit_reset T t now u h r :
  preserves (spent T t) (commit_reset now u h r).
Proof.
  intros db (x & Hin & Htok & Hx). unfold commit_reset, store; simpl.
  exists (if (PasswordResetToken.id x =? PasswordResetToken.id r)%Z
          then mark_used x else x).
  split; [|destruct (PasswordResetToken.id x =? PasswordResetToken.id r)%Z;
           simpl; auto].
  apply (in_map (fun x => if (PasswordResetToken.id x =? PasswordResetToken.id r)%Z
                          then mark_used x else x)). exact Hin.
Qed.

Lemma spent_add_reset_token T t row : preserves (spent T t) (add_reset_token row).
Proof.
  intros db (x & Hin & Hx). unfold add_reset_token, store.
  destruct (existsb _ _); simpl; exists x; split; auto.
  apply in_or_app. now left.
Qed.

Lemma spent_exec_all {bcrypt : Hasher} T t (calls : list call) (db : DB) :
  spent T t db -> spent T t (exec_all calls db).
Proof.
  apply exec_all_invariant.
  - intros row _ d H. unfold add_user, store.
    destruct (existsb _ _); exact H.
  - intros row _ d H. unfold add_session, store.
    destruct (existsb _ _); exact H.
  - intros row _. apply spent_add_reset_token.
  - intros s d H. exact H.
  - intros. apply spent_commit_reset.
Qed.

Section ResetPassword.
Context {bcrypt : Hasher}.

Lemma redeemable_true now token r :
  redeemable now token r = true
  <-> PasswordResetToken.token r = token
      /\ now < PasswordResetToken.expires_at r
      /\ PasswordResetToken.is_used r = false.
Proof.
  unfold redeemable.
  rewrite !andb_true_iff, String.eqb_eq, Z.ltb_lt, Bool.eqb_true_iff. tauto.
Qed.

Lemma reset_password_run now salt ok token pw (db : DB) :
  unique_keys db ->
  reset_password now salt ok token pw db
  = match find (redeemable now token) (reset_tokens db) with
    | None => (inr false, db)
    | Some r =>
        match find (fun u => (User.id u =? PasswordResetToken.user_id r)%Z)
                (users db) with
        | None => (inr false, db)
        | Some u =>
            (inr true,
             store (commit_reset now u (hash_password salt pw) r db))
        end
    end.
Proof.
  intros Huk. unfold reset_password, bind, select_reset_tokens.
  fold (redeemable now token).
  rewrite (@scalar_of_key _ _ PasswordResetToken.token
             (redeemable now token) token);
    [|apply Huk|intros y Hy; now apply redeemable_true in Hy].
  unfold ret at 1.
  destruct (find (redeemable now token) (reset_tokens db)) as [r|];
    [|reflexivity].
  unfold select_users.
  rewrite (@scalar_of_key _ _ User.id _ (PasswordResetToken.user_id r));
    [|apply Huk|intros y Hy; now apply Z.eqb_eq in Hy].
  unfold ret at 1.
  destruct (find _ (users db)) as [u|]; reflexivity.
Qed.

Lemma find_redeemable now token (db : DB) r :
  unique_keys db -> In r (reset_tokens db) ->
  redeemable now token r = true ->
  find (redeemable now token) (reset_tokens db) = Some r.
Proof.
  intros Huk Hin Hr.
  apply (find_of_key PasswordResetToken.token); auto; [apply Huk|].
  intros y Hy. apply redeemable_true in Hy, Hr. destruct Hy, Hr. congruence.
Qed.

Lemma find_user_by_id (db : DB) (u : User.t) :
  unique_keys db -> In u (users db) ->
  find (fun x => (User.id x =? User.id u)%Z) (users db) = Some u.
Proof.
  intros Huk Hin.
  apply (find_of_key User.id); auto; [apply Huk| |apply Z.eqb_refl].
  intros y Hy. now apply Z.eqb_eq.
Qed.

Lemma assign_hashed_password_value now h u :
  User.hashed_password (assign_hashed_password now h u) = h.
Proof.
  unfold assign_hashed_password.
  destruct (User.hashed_password u =? h) eqn:E; [|reflexivity].
  now apply String.eqb_eq.
Qed.

(** In a store with unique primary keys, [after_reset] rewrites the two
    rows and nothing else. *)
Lemma after_reset_rows now h u r (db : DB) :
  unique_keys db -> In u (users db) -> In r (reset_tokens db) ->
  (forall x, In x (users (after_reset now h u r db))
             <-> x = assign_hashed_password now h u
                 \/ (In x (users db) /\ x <> u))
  /\ (forall x, In x (reset_tokens (after_reset now h u r db))
                <-> x = mark_used r \/ (In x (reset_tokens db) /\ x <> r)).
Proof.
  intros Huk Hu Hr. unfold after_reset; simpl. split; intros x.
  - rewrite in_map_iff. split.
    + intros (y & Hy & Hin).
      destruct (User.id y =? User.id u)%Z eqn:E.
      * apply Z.eqb_eq in E.
        rewrite (key_injective User.id (users db) y u (uk_user_id Huk) Hin Hu E) in Hy.
        now left.
      * right. subst x. split; auto. intros ->.
        rewrite Z.eqb_refl in E. discriminate.
    + intros [->|[Hin Hne]].
      * exists u. now rewrite Z.eqb_refl.
      * exists x. split; auto.
        destruct (User.id x =? User.id u)%Z eqn:E; auto.
        apply Z.eqb_eq in E. exfalso. apply Hne.
        apply (key_injective User.id (users db)); auto. apply Huk.
  - rewrite in_map_iff. split.
    + intros (y & Hy & Hin).
      destruct (PasswordResetToken.id y =? PasswordResetToken.id r)%Z eqn:E.
      * apply Z.eqb_eq in E.
        rewrite (key_injective PasswordResetToken.id (reset_tokens db) y r
                   (uk_reset_id Huk) Hin Hr E) in Hy.
        now left.
      * right. subst x. split; auto. intros ->.
        rewrite Z.eqb_refl in E. discriminate.
    + intros [->|[Hin Hne]].
      * exists r. now rewrite Z.eqb_refl.
      * exists x. split; auto.
        destruct (PasswordResetToken.id x =? PasswordResetToken.id r)%Z eqn:E; auto.
        apply Z.eqb_eq in E. exfalso. apply Hne.
        apply (key_injective PasswordResetToken.id (reset_tokens db)); auto.
        apply Huk.
Qed.

(** C2. [reset_password] returns success exactly when a stored reset
    token carries the given token, expires strictly after the current
    time, is not consumed, and its owning identity is stored.  On success
    the store is the old one with that identity's credential set to the
    hash of the new password and that token marked consumed, both in the
    one store the call leaves; in every other case the call returns
    failure and the store is the one it started from. *)
Theorem reset_password_success_iff now salt ok token pw (db : DB)
    (Huk : unique_keys db) :
  let res := reset_password now salt ok token pw db in
  (outcome res = inr true
   <-> exists r u,
         In r (reset_tokens db)
         /\ PasswordResetToken.token r = token
         /\ now < PasswordResetToken.expires_at r
         /\ PasswordResetToken.is_used r = false
         /\ In u (users db)
         /\ User.id u = PasswordResetToken.user_id r)
  /\ (forall r u,
         In r (reset_tokens db)
         /\ PasswordResetToken.token r = token
         /\ now < PasswordResetToken.expires_at r
         /\ PasswordResetToken.is_used r = false
         /\ In u (users db)
         /\ User.id u = PasswordResetToken.user_id r ->
         let u' := assign_hashed_password now (hash_password salt pw) u in
         res = (inr true,
                after_reset now (hash_password salt pw) u r db)
         /\ User.hashed_password u' = hash_password salt pw
         /\ PasswordResetToken.is_used (mark_used r) = true
         /\ (forall x, In x (users (store res))
                       <-> x = u' \/ (In x (users db) /\ x <> u))
         /\ (forall x, In x (reset_tokens (store res))
                       <-> x = mark_used r
                           \/ (In x (reset_tokens db) /\ x <> r))
         /\ sessions (store res) = sessions db)
  /\ (outcome res <> inr true -> res = (inr false, db)).
Proof.
  intros res. subst res. rewrite (reset_password_run now salt ok token pw Huk).
  assert (Hfwd : forall r u,
             In r (reset_tokens db)
             /\ PasswordResetToken.token r = token
             /\ now < PasswordResetToken.expires_at r
             /\ PasswordResetToken.is_used r = false
             /\ In u (users db)
             /\ User.id u = PasswordResetToken.user_id r ->
             find (redeemable now token) (reset_tokens db) = Some r
             /\ find (fun x => (User.id x =? PasswordResetToken.user_id r)%Z)
                  (users db) = Some u).
  { intros r u (Hr & Ht & He & Hu & Hin & Hid). split.
    - apply find_redeemable; auto. now apply redeemable_true.
    - rewrite <- Hid. now apply find_user_by_id. }
  split; [split|split].
  - destruct (find (redeemable now token) (reset_tokens db)) as [r|] eqn:Er;
      [|discriminate].
    destruct (find _ (users db)) as [u|] eqn:Eu; [|discriminate].
    intros _. exists r, u.
    apply find_some in Er as [Hr Hp]. apply redeemable_true in Hp.
    apply find_some in Eu as [Hu Hid]. apply Z.eqb_eq in Hid. tauto.
  - intros (r & u & H). destruct (Hfwd r u H) as [-> ->]. reflexivity.
  - intros r u H u'. destruct (Hfwd r u H) as [-> ->].
    destruct (after_reset_rows now (hash_password salt pw) u r Huk)
      as [Hus Hrs]; [tauto|tauto|].
    split; [reflexivity|].
    split; [apply assign_hashed_password_value|].
    split; [reflexivity|].
    split; [exact Hus|]. split; [exact Hrs|reflexivity].
  - destruct (find (redeemable now token) (reset_tokens db)) as [r|];
      [|reflexivity].
    destruct (find _ (users db)) as [u|]; [|reflexivity].
    intros H. exfalso. now apply H.
Qed.
End ResetPassword.

Section SingleUse.
Context {bcrypt : Hasher}.

(** A spent token redeems nothing. *)
Lemma reset_password_spent now salt ok T pw (db : DB) :
  unique_keys db -> spent T now db ->
  reset_password now salt ok T pw db = (inr false, db).
Proof.
  intros Huk (r & Hr & Htok & Hspent).
  rewrite (reset_password_run now salt ok T pw Huk).
  rewrite find_absent; [reflexivity|].
  intros x Hx. destruct (redeemable now T x) eqn:E; [|reflexivity].
  apply redeemable_true in E as (Hxt & Hlt & Hused).
  assert (x = r) as ->.
  { apply (key_injective PasswordResetToken.token (reset_tokens db)); auto.
    - apply Huk.
    - congruence. }
  destruct Hspent as [Hu|Hexp]; [congruence|lia].
Qed.

(** A successful reset leaves its token spent, at every instant. *)
Lemma reset_password_spends now salt ok T pw (db : DB) t :
  unique_keys db ->
  outcome (reset_password now salt ok T pw db) = inr true ->
  spent T t (store (reset_password now salt ok T pw db)).
Proof.
  intros Huk. rewrite (reset_password_run now salt ok T pw Huk).
  destruct (find (redeemable now T) (reset_tokens db)) as [r|] eqn:Er;
    [|discriminate].
  destruct (find _ (users db)) as [u|]; [|discriminate].
  intros _. apply find_some in Er as [Hr Hp].
  apply redeemable_true in Hp as (Ht & _ & _).
  unfold store, commit_reset; simpl.
  exists (mark_used r). split; [|simpl; auto].
  apply in_map_iff. exists r. now rewrite Z.eqb_refl.
Qed.

(** C1, for calls that run one after another.  A reset token authorises
    at most one password change.  After a successful [reset_password] with
    token [T], and likewise from the instant a stored token [T] has
    expired, every later [reset_password] with [T], after any history of
    lifecycle calls, returns failure and leaves the three tables as they
    were. *)
Theorem reset_token_single_use (db : DB) (T : string) (calls : list call)
    now' salt' ok' pw' (Huk : unique_keys db) :
  (forall now salt ok pw,
      outcome (reset_password now salt ok T pw db) = inr true ->
      let db' := exec_all calls (store (reset_password now salt ok T pw db)) in
      reset_password now' salt' ok' T pw' db' = (inr false, db'))
  /\ (forall r,
         In r (reset_tokens db) ->
         PasswordResetToken.token r = T ->
         PasswordResetToken.expires_at r <= now' ->
         let db' := exec_all calls db in
         reset_password now' salt' ok' T pw' db' = (inr false, db')).
Proof.
  split.
  - intros now salt ok pw Hok db'. subst db'.
    apply reset_password_spent.
    + apply unique_keys_exec_all.
      apply (@preserves_reset_password _ unique_keys unique_keys_commit_reset).
      exact Huk.
    + apply spent_exec_all. now apply reset_password_spends.
  - intros r Hr Ht He db'. subst db'.
    apply reset_password_spent.
    + now apply unique_keys_exec_all.
    + apply spent_exec_all. exists r. auto.
Qed.
End SingleUse.

(** ** Identity lookups *)

Section Identities.
Context {bcrypt : Hasher}.

Lemma model_validate_valid (db : DB) (u : User.t) :
  valid_rows db -> In u (users db) ->
  UserResponse.model_validate u = inr (UserResponse.from_attributes u).
Proof.
  intros Hv Hin. unfold UserResponse.model_validate.
  unfold valid_rows in Hv. rewrite Forall_forall in Hv.
  now rewrite (Hv u Hin).
Qed.

Lemma user_by_email (email : string) (db : DB) :
  unique_keys db ->
  (rows <- select_users (fun u => User.email u =? email) ;;
   scalar_one_or_none rows) db
  = (inr (find (fun u => User.email u =? email) (users db)), db).
Proof.
  intros Huk. unfold bind, select_users.
  rewrite (@scalar_of_key _ _ User.email _ email);
    [reflexivity|apply Huk|intros y Hy; now apply String.eqb_eq].
Qed.

Lemma user_by_id (user_id : Z) (db : DB) :
  unique_keys db ->
  (rows <- select_users (fun u => (User.id u =? user_id)%Z) ;;
   scalar_one_or_none rows) db
  = (inr (find (fun u => (User.id u =? user_id)%Z) (users db)), db).
Proof.
  intros Huk. unfold bind, select_users.
  rewrite (@scalar_of_key _ _ User.id _ user_id);
    [reflexivity|apply Huk|intros y Hy; now apply Z.eqb_eq].
Qed.

Lemma find_user_by_email (db : DB) (u : User.t) :
  unique_keys db -> In u (users db) ->
  find (fun x => User.email x =? User.email u) (users db) = Some u.
Proof.
  intros Huk Hin.
  apply (find_of_key User.email); auto; [apply Huk| |apply String.eqb_refl].
  intros y Hy. now apply String.eqb_eq.
Qed.

Lemma get_user_by_email_run (email : string) (db : DB) :
  wf db ->
  get_user_by_email email db
  = (inr (option_map UserResponse.from_attributes
            (find (fun u => User.email u =? email) (users db))), db).
Proof.
  intros [Huk Hv]. unfold get_user_by_email.
  pose proof (user_by_email email Huk) as E. unfold bind in E |- *.
  unfold select_users in E |- *. rewrite E.
  destruct (find _ (users db)) as [u|] eqn:Ef; [|reflexivity].
  apply find_some in Ef as [Hin _].
  unfold lift. now rewrite (model_validate_valid u Hv Hin).
Qed.

Lemma get_user_by_id_run (user_id : Z) (db : DB) :
  wf db ->
  get_user_by_id user_id db
  = (inr (option_map UserResponse.from_attributes
            (find (fun u => (User.id u =? user_id)%Z) (users db))), db).
Proof.
  intros [Huk Hv]. unfold get_user_by_id.
  pose proof (user_by_id user_id Huk) as E. unfold bind in E |- *.
  unfold select_users in E |- *. rewrite E.
  destruct (find _ (users db)) as [u|] eqn:Ef; [|reflexivity].
  apply find_some in Ef as [Hin _].
  unfold lift. now rewrite (model_validate_valid u Hv Hin).
Qed.

Lemma authenticate_user_run (email password : string) (db : DB) :
  wf db ->
  authenticate_user email password db
  = (inr match find (fun u => User.email u =? email) (users db) with
         | None => None
         | Some u =>
             if verify_password password (User.hashed_password u)
             then Some (UserResponse.from_attributes u)
             else None
         end, db).
Proof.
  intros [Huk Hv]. unfold authenticate_user.
  pose proof (user_by_email email Huk) as E. unfold bind in E |- *.
  unfold select_users in E |- *. rewrite E.
  destruct (find _ (users db)) as [u|] eqn:Ef; [|reflexivity].
  apply find_some in Ef as [Hin _].
  destruct (verify_password password (User.hashed_password u)); simpl;
    [|reflexivity].
  unfold lift. now rewrite (model_validate_valid u Hv Hin).
Qed.

End Identities.

(** ** Session creation and resolution *)

Section SessionResolution.
Context {bcrypt : Hasher}.

Lemma live_true now token s :
  live now token s = true
  <-> Session.token s = token /\ now < Session.expires_at s.
Proof.
  unfold live. now rewrite andb_true_iff, String.eqb_eq, Z.ltb_lt.
Qed.

Lemma find_live now token (db : DB) s :
  unique_keys db -> In s (sessions db) -> live now token s = true ->
  find (live now token) (sessions db) = Some s.
Proof.
  intros Huk Hin Hs.
  apply (find_of_key Session.token); auto; [apply Huk|].
  intros y Hy. apply live_true in Hy, Hs. destruct Hy, Hs. congruence.
Qed.

Lemma get_session_by_token_run now token (db : DB) :
  wf db ->
  get_session_by_token now token db
  = (inr match find (live now token) (sessions db) with
         | None => None
         | Some s =>
             option_map (joined s)
               (find (fun u => (User.id u =? Session.user_id s)%Z) (users db))
         end, db).
Proof.
  intros Hwf. unfold get_session_by_token, bind, select_sessions.
  fold (live now token).
  rewrite (@scalar_of_key _ _ Session.token (live now token) token);
    [|apply Hwf|intros y Hy; now apply live_true in Hy].
  unfold ret at 1.
  destruct (find (live now token) (sessions db)) as [s|]; [|reflexivity].
  rewrite (get_user_by_id_run (Session.user_id s) Hwf).
  destruct (find _ (users db)) as [u|]; reflexivity.
Qed.

End SessionResolution.

Ltac nodup_closed :=
  repeat (constructor; [simpl; intuition (try discriminate; try congruence)|]);
  try constructor.

Lemma wf_db_orphan : wf db_orphan.
Proof.
  split; [constructor; simpl; nodup_closed|constructor].
Qed.

Example db_orphan_reachable :
  create_session 1000 "tok" 42 empty_db = (inl ValidationError, db_orphan).
Proof. reflexivity. Qed.

(** C4, as stated, fails: in [db_orphan] a session with the token is stored
    and has not expired, yet the call returns [None]. *)
Lemma get_session_by_token_orphan_counterexample :
  wf db_orphan
  /\ get_session_by_token 2000 "tok" db_orphan = (inr None, db_orphan)
  /\ ~ ((exists sr,
           outcome (get_session_by_token 2000 "tok" db_orphan) = inr (Some sr))
        <-> (exists s, In s (sessions db_orphan)
                       /\ Session.token s = "tok"
                       /\ 2000 < Session.expires_at s)).
Proof.
  split; [exact wf_db_orphan|]. split; [reflexivity|].
  intros [_ H].
  destruct H as [sr Hsr].
  - eexists. split; [left; reflexivity|]. split; [reflexivity|].
    simpl. unfold timedelta_hours. lia.
  - discriminate Hsr.
Qed.

Section SessionCreation.
Context {bcrypt : Hasher}.

Lemma wf_add_session row :
  (forall n, Session.id (row n) = n) -> preserves wf (add_session row).
Proof.
  intros Hid db [Huk Hv]. split.
  - now apply unique_keys_add_session.
  - unfold add_session, store. destruct (existsb _ _); exact Hv.
Qed.

Lemma add_session_fresh row (db : DB) :
  (forall s, In s (sessions db) ->
             Session.token s
             <> Session.token (row (next_id (map Session.id (sessions db))))) ->
  add_session row db
  = (inr (row (next_id (map Session.id (sessions db)))),
     mkDB (users db)
          (sessions db ++ [row (next_id (map Session.id (sessions db)))])
          (reset_tokens db)).
Proof.
  intros Hfresh. unfold add_session.
  destruct (existsb _ (sessions db)) eqn:E; [|reflexivity].
  apply existsb_exists in E as (s & Hs & He).
  apply String.eqb_eq in He. now apply Hfresh in Hs.
Qed.

Lemma create_session_run now token (db : DB) (u : User.t) :
  wf db -> In u (users db) ->
  (forall s, In s (sessions db) -> Session.token s <> token) ->
  create_session now token (User.id u) db
  = (inr (joined (new_session now token (User.id u) db) u),
     mkDB (users db)
          (sessions db ++ [new_session now token (User.id u) db])
          (reset_tokens db)).
Proof.
  intros Hwf Hu Hfresh. unfold create_session, bind.
  pose proof (@wf_add_session
                (fun id => Session.mk id token (User.id u) now
                             (now + timedelta_hours 24))
                (fun n => eq_refl) db Hwf) as Hwf'.
  rewrite add_session_fresh in Hwf' |- *; [|exact Hfresh|exact Hfresh].
  unfold store in Hwf'; simpl in Hwf'.
  rewrite (get_user_by_id_run (User.id u) Hwf'). simpl.
  rewrite (find_user_by_id u (proj1 Hwf) Hu). reflexivity.
Qed.

Lemma wf_after_create_session now token (db : DB) (uid : Z) :
  wf db ->
  (forall s, In s (sessions db) -> Session.token s <> token) ->
  wf (mkDB (users db) (sessions db ++ [new_session now token uid db])
           (reset_tokens db)).
Proof.
  intros Hwf Hfresh.
  pose proof (@wf_add_session
                (fun id => Session.mk id token uid now
                             (now + timedelta_hours 24))
                (fun n => eq_refl) db Hwf) as H.
  rewrite add_session_fresh in H; [exact H|exact Hfresh].
Qed.

(** Resolving the token of the session just created, before it expires. *)
Lemma resolve_new_session now now' token (db : DB) (u : User.t) :
  wf db -> In u (users db) ->
  (forall s, In s (sessions db) -> Session.token s <> token) ->
  now' < now + timedelta_hours 24 ->
  let s := new_session now token (User.id u) db in
  get_session_by_token now' token
    (mkDB (users db) (sessions db ++ [s]) (reset_tokens db))
  = (inr (Some (joined s u)),
     mkDB (users db) (sessions db ++ [s]) (reset_tokens db)).
Proof.
  intros Hwf Hu Hfresh Hlt s.
  assert (Hwf' : wf (mkDB (users db) (sessions db ++ [s]) (reset_tokens db)))
    by (apply wf_after_create_session; assumption).
  rewrite (get_session_by_token_run now' token Hwf').
  rewrite (find_live now' token s (proj1 Hwf')).
  - change (Session.user_id s) with (User.id u). simpl.
    now rewrite (find_user_by_id u (proj1 Hwf) Hu).
  - simpl. apply in_or_app. right. now left.
  - apply live_true. split; [reflexivity|exact Hlt].
Qed.

End SessionCreation.

(** ** Password reset request *)

Section ResetRequest.
Context {bcrypt : Hasher}.

Lemma add_reset_token_fresh row (db : DB) :
  (forall r, In r (reset_tokens db) ->
             PasswordResetToken.token r
             <> PasswordResetToken.token
                  (row (next_id (map PasswordResetToken.id (reset_tokens db))))) ->
  add_reset_token row db
  = (inr (row (next_id (map PasswordResetToken.id (reset_tokens db)))),
     mkDB (users db) (sessions db)
          (reset_tokens db
           ++ [row (next_id (map PasswordResetToken.id (reset_tokens db)))])).
Proof.
  intros Hfresh. unfold add_reset_token.
  destruct (existsb _ (reset_tokens db)) eqn:E; [|reflexivity].
  apply existsb_exists in E as (r & Hr & He).
  apply String.eqb_eq in He. now apply Hfresh in Hr.
Qed.

End ResetRequest.

(** ** Registration *)

Section Registration.
Context {bcrypt : Hasher}.

Lemma add_user_fresh row (db : DB) :
  (forall u, In u (users db) ->
             User.email u <> User.email (row (next_id (map User.id (users db))))) ->
  add_user row db
  = (inr (row (next_id (map User.id (users db)))),
     mkDB (users db ++ [row (next_id (map User.id (users db)))])
          (sessions db) (reset_tokens db)).
Proof.
  intros Hfresh. unfold add_user.
  destruct (existsb _ (users db)) eqn:E; [|reflexivity].
  apply existsb_exists in E as (u & Hu & He).
  apply String.eqb_eq in He. now apply Hfresh in Hu.
Qed.

Lemma create_user_run now salt mail_ok d (db : DB) :
  wf db ->
  create_user now salt mail_ok d db
  = match find (fun u => User.email u =? UserCreate.email d) (users db) with
    | Some _ => (inl (ValueError "Email already registered"), db)
    | None =>
        let row := new_user now (hash_password salt (UserCreate.password d)) d db in
        (UserResponse.model_validate row,
         mkDB (users db ++ [row]) (sessions db) (reset_tokens db))
    end.
Proof.
  intros Hwf. unfold create_user, bind.
  rewrite (get_user_by_email_run (UserCreate.email d) Hwf).
  destruct (find _ (users db)) as [u|] eqn:Ef; [reflexivity|]. simpl.
  rewrite add_user_fresh.
  - unfold send_welcome_email, ret, lift, new_user. reflexivity.
  - intros u Hu. simpl. apply String.eqb_neq.
    apply (find_none _ _ Ef u Hu).
Qed.

(** X2. Registration on a well-formed store.  It raises the duplicate error
    exactly when the email is taken, and then persists nothing; otherwise
    it persists exactly one new identity, active and with the role
    defaulting to [user], whatever the lengths of the fields, and returns
    its view when the fields respect the limits of the view. *)
Theorem create_user_spec now salt mail_ok d (db : DB) :
  wf db ->
  let res := create_user now salt mail_ok d db in
  let row := new_user now (hash_password salt (UserCreate.password d)) d db in
  (outcome res = inl (ValueError "Email already registered")
   <-> exists u, In u (users db) /\ User.email u = UserCreate.email d)
  /\ ((exists u, In u (users db) /\ User.email u = UserCreate.email d) ->
      store res = db)
  /\ ((forall u, In u (users db) -> User.email u <> UserCreate.email d) ->
      store res = mkDB (users db ++ [row]) (sessions db) (reset_tokens db)
      /\ User.is_active row = true
      /\ User.role row = match UserCreate.role d with
                         | Some r => r
                         | None => UserRole.user
                         end
      /\ (UserResponse.constraints row = true ->
          outcome res = inr (UserResponse.from_attributes row))
      /\ (UserResponse.constraints row = false ->
          outcome res = inl ValidationError)).
Proof.
  intros Hwf res row. subst res.
  rewrite (create_user_run now salt mail_ok d Hwf). fold row.
  destruct (find _ (users db)) as [u|] eqn:Ef.
  - apply find_some in Ef as [Hu He]. apply String.eqb_eq in He.
    split; [split; [intros _; exists u; auto|reflexivity]|].
    split; [reflexivity|].
    intros Hnone. now apply Hnone in Hu.
  - assert (Hnone : forall u, In u (users db) ->
                User.email u <> UserCreate.email d).
    { intros u Hu. apply String.eqb_neq. apply (find_none _ _ Ef u Hu). }
    unfold outcome, store, UserResponse.model_validate; simpl.
    split; [split|split].
    + destruct (UserResponse.constraints row); discriminate.
    + intros (u & Hu & He). now apply Hnone in Hu.
    + intros (u & Hu & He). now apply Hnone in Hu.
    + intros _. repeat split.
      * intros ->. reflexivity.
      * intros ->. reflexivity.
Qed.

(** C7, at the failing input.  On the empty store, registering [bob]
    persists his identity and then raises [ValidationError]: the view
    rejects the phone number that [UserCreate] accepted. *)
Theorem create_user_long_phone now salt mail_ok :
  let row := new_user now (hash_password salt "pw12345678") bob empty_db in
  create_user now salt mail_ok bob empty_db
  = (inl ValidationError, mkDB [row] [] [])
  /\ User.email row = "bob@example.com"
  /\ (forall v : UserResponse.t,
         outcome (create_user now salt mail_ok bob empty_db) <> inr v).
Proof.
  intros row. split; [reflexivity|]. split; [reflexivity|].
  intros v. discriminate.
Qed.
End Registration.

(** ** Session termination *)

(** C5, as stated, fails: the session of [db_stale] expired at instant
    1000, and at any later instant [delete_session] still removes it and
    returns [true]. *)
Lemma delete_session_expired_counterexample :
  In stale_session (sessions db_stale)
  /\ Session.expires_at stale_session <= 5000
  /\ delete_session "tok" db_stale = (inr true, db_alice)
  /\ outcome (delete_session "tok" db_stale) <> inr false.
Proof.
  split; [now left|]. split; [simpl; lia|]. split; [reflexivity|].
  discriminate.
Qed.

Section Termination.

Lemma without_session_rows (s : Session.t) (db : DB) :
  unique_keys db -> In s (sessions db) ->
  forall r, In r (sessions (without_session s db))
            <-> In r (sessions db) /\ r <> s.
Proof.
  intros Huk Hs r. unfold without_session; simpl.
  rewrite filter_In, negb_true_iff, Z.eqb_neq.
  split; intros [Hr Hne]; split; auto.
  - intros ->. now apply Hne.
  - intros Hid. apply Hne.
    apply (key_injective Session.id (sessions db)); auto. apply Huk.
Qed.

(** C5, as the code has it.  [delete_session] looks the session up by
    token alone.  It returns [false] and changes nothing when no stored
    session has the token; when one has, whatever its expiry, it removes
    that row and no other and returns [true], and a second call with the
    same token returns [false]. *)
Theorem delete_session_reports_removal (token : string) (db : DB)
    (Huk : unique_keys db) :
  ((forall s, In s (sessions db) -> Session.token s <> token) ->
   delete_session token db = (inr false, db))
  /\ (forall s,
        In s (sessions db) -> Session.token s = token ->
        let db' := without_session s db in
        delete_session token db = (inr true, db')
        /\ (forall r, In r (sessions db') <-> In r (sessions db) /\ r <> s)
        /\ users db' = users db
        /\ reset_tokens db' = reset_tokens db
        /\ delete_session token db' = (inr false, db')).
Proof.
  split.
  - intros Hnone. rewrite (delete_session_run token Huk).
    rewrite find_absent; [reflexivity|].
    intros x Hx. apply String.eqb_neq. now apply Hnone.
  - intros s Hs Ht db'.
    assert (Hfind : find (fun x => Session.token x =? token) (sessions db)
                    = Some s).
    { apply (find_of_key Session.token); auto; [apply Huk| |].
      - intros y Hy. apply String.eqb_eq in Hy. congruence.
      - now apply String.eqb_eq. }
    pose proof (without_session_rows s Huk Hs) as Hrows.
    split; [|split; [exact Hrows|split; [reflexivity|split; [reflexivity|]]]].
    + rewrite (delete_session_run token Huk), Hfind. reflexivity.
    + assert (Huk' : unique_keys db') by (now apply (unique_keys_delete_row s)).
      rewrite (delete_session_run token Huk').
      rewrite find_absent; [reflexivity|].
      intros x Hx. apply Hrows in Hx as [Hx Hne].
      apply String.eqb_neq. intros Hxt. apply Hne.
      apply (key_injective Session.token (sessions db)); auto; [apply Huk|].
      congruence.
Qed.
End Termination.

(** ** The active flag *)

Section ActiveFlag.
Context {bcrypt : Hasher}.
Variable flags : Z -> bool.






End ActiveFlag.

Section Deactivated.
Context {bcrypt : Hasher}.

End Deactivated.

(** ** The theorems at concrete stores *)

Lemma wf_db_alice : wf db_alice.
Proof.
  split; [constructor; simpl; nodup_closed|].
  constructor; [reflexivity|constructor].
Qed.

Lemma wf_db_stale : wf db_stale.
Proof.
  split; [constructor; simpl; nodup_closed|].
  constructor; [reflexivity|constructor].
Qed.

Lemma wf_db_session : wf db_session.
Proof.
  split; [constructor; simpl; nodup_closed|].
  constructor; [reflexivity|constructor].
Qed.

Lemma wf_db_carol : wf db_carol.
Proof.
  split; [constructor; simpl; nodup_closed|].
  constructor; [reflexivity|constructor].
Qed.

#[local] Existing Instance plain_hasher.

(** After carol consumes [T], a later history and a second attempt. *)
Lemma reset_token_single_use_witness :
  unique_keys db_carol
  /\ outcome (reset_password 2500 "s3" true "T" "newpass1234" db_carol)
     = inr true
  /\ (let db' :=
        exec_all later_calls
          (store (reset_password 2500 "s3" true "T" "newpass1234" db_carol)) in
      reset_password 2600 "s4" true "T" "otherpass99" db' = (inr false, db')).
Proof.
  split; [exact (proj1 wf_db_carol)|]. split; [reflexivity|].
  exact (proj1 (@reset_token_single_use plain_hasher db_carol "T" later_calls
                  2600 "s4" true "otherpass99" (proj1 wf_db_carol))
           2500 "s3" true "newpass1234" eq_refl).
Defined.

(** The success condition of [reset_password] at [db_carol]. *)
Lemma reset_password_success_iff_witness :
  unique_keys db_carol
  /\ (outcome (reset_password 2500 "s3" true "T" "newpass1234" db_carol)
      = inr true
      <-> exists r u,
            In r (reset_tokens db_carol)
            /\ PasswordResetToken.token r = "T"
            /\ 2500 < PasswordResetToken.expires_at r
            /\ PasswordResetToken.is_used r = false
            /\ In u (users db_carol)
            /\ User.id u = PasswordResetToken.user_id r).
Proof.
  split; [exact (proj1 wf_db_carol)|].
  exact (proj1 (@reset_password_success_iff plain_hasher 2500 "s3" true "T"
                  "newpass1234" db_carol (proj1 wf_db_carol))).
Defined.

(** Deleting the stale session of [db_stale], twice. *)
Lemma delete_session_reports_removal_witness :
  unique_keys db_stale
  /\ In stale_session (sessions db_stale)
  /\ (let db' := without_session stale_session db_stale in
      delete_session "tok" db_stale = (inr true, db')
      /\ (forall r, In r (sessions db')
                    <-> In r (sessions db_stale) /\ r <> stale_session)
      /\ users db' = users db_stale
      /\ reset_tokens db' = reset_tokens db_stale
      /\ delete_session "tok" db' = (inr false, db')).
Proof.
  split; [exact (proj1 wf_db_stale)|].
  assert (H : In stale_session (sessions db_stale)) by (left; reflexivity).
  split; [exact H|].
  exact (proj2 (@delete_session_reports_removal "tok" db_stale
                  (proj1 wf_db_stale)) stale_session H eq_refl).
Defined.

(** The sweep at instant 5000 empties the sessions of [db_stale]. *)
Lemma cleanup_expired_sessions_exact_witness :
  unique_keys db_stale
  /\ sessions (store (cleanup_expired_sessions 5000 db_stale)) = [].
Proof.
  split; [exact (proj1 wf_db_stale)|].
  exact (proj1 (@cleanup_expired_sessions_exact 5000 db_stale
                  (proj1 wf_db_stale))).
Defined.


(** Registering alice a second time. *)
Lemma create_user_spec_witness :
  wf db_alice
  /\ (outcome (create_user 2000 "s9" true alice db_alice)
      = inl (ValueError "Email already registered")
      <-> exists u, In u (users db_alice)
                    /\ User.email u = UserCreate.email alice).
Proof.
  split; [exact wf_db_alice|].
  exact (proj1 (@create_user_spec plain_hasher 2000 "s9" true alice db_alice
                  wf_db_alice)).
Defined.

(** ** The current user of a request *)

Lemma filter_none (A : Type) (p : A -> bool) (l : list A) :
  (forall x, In x l -> p x = false) -> filter p l = [].
Proof.
  intros H. induction l as [|a l IH]; [reflexivity|]. simpl.
  rewrite (H a (or_introl eq_refl)). apply IH.
  intros x Hx. apply H. now right.
Qed.

Lemma get_session_by_token_reads now token (db : DB) :
  store (get_session_by_token now token db) = db.
Proof.
  exact (@preserves_get_session_by_token (fun d => d = db) now token db eq_refl).
Qed.

Section CurrentUser.
Context {bcrypt : Hasher}.

(** What [get_current_user_from_request] makes of the outcome of
    [get_session_by_token]. *)
Lemma current_user_of_session now request token (db : DB) :
  dict_get "session_token" (cookies request) = Some token ->
  token <> "" ->
  get_current_user_from_request now request db
  = (match outcome (get_session_by_token now token db) with
     | inr (Some sr) => inr (Some (SessionResponse.user sr))
     | _ => inr None
     end, db).
Proof.
  intros Hc Hne. unfold get_current_user_from_request. rewrite Hc.
  apply String.eqb_neq in Hne. rewrite Hne.
  unfold try_except, bind.
  pose proof (get_session_by_token_reads now token db) as Hs.
  unfold outcome, store in *.
  destruct (get_session_by_token now token db) as [[e|[sr|]] d];
    simpl in *; subst d; reflexivity.
Qed.

(** X3. [get_current_user_from_request] never raises and never writes, on
    any store: without the cookie, or with an empty one, it returns [None]
    without a lookup; with a token it returns the user of the session that
    [get_session_by_token] resolves, and [None] when that call returns
    [None] or raises. *)
Theorem current_user_never_raises now request (db : DB) :
  let res := get_current_user_from_request now request db in
  store res = db
  /\ (exists r, outcome res = inr r)
  /\ (dict_get "session_token" (cookies request) = None
      \/ dict_get "session_token" (cookies request) = Some "" ->
      outcome res = inr None)
  /\ (forall token,
         dict_get "session_token" (cookies request) = Some token ->
         token <> "" ->
         outcome res
         = match outcome (get_session_by_token now token db) with
           | inr (Some sr) => inr (Some (SessionResponse.user sr))
           | _ => inr None
           end).
Proof.
  intros res. subst res.
  destruct (dict_get "session_token" (cookies request)) as [token|] eqn:Hc.
  - destruct (String.eqb_spec token "") as [->|Hne].
    + unfold get_current_user_from_request. rewrite Hc. simpl.
      split; [reflexivity|]. split; [eexists; reflexivity|].
      split; [intros _; reflexivity|].
      intros t [= <-] H. now contradiction H.
    + rewrite (current_user_of_session now request db Hc Hne).
      unfold outcome, store; simpl.
      split; [reflexivity|]. split; [|split].
      * destruct (fst (get_session_by_token now token db)) as [e|[sr|]]; eauto.
      * intros [H|[= H]]; [discriminate|]. now contradiction Hne.
      * intros t [= <-] _. reflexivity.
  - unfold get_current_user_from_request. rewrite Hc.
    split; [reflexivity|]. split; [eexists; reflexivity|].
    split; [intros _; reflexivity|].
    intros t [=].
Qed.

(** X4. On a well-formed store the request has a current user exactly
    when its [session_token] cookie is not empty, a stored session carries
    it and expires strictly after the current time, and the identity that
    owns the session is stored; the user returned is that identity's
    view. *)
Theorem current_user_iff now request (db : DB) (Hwf : wf db) :
  forall v,
    outcome (get_current_user_from_request now request db) = inr (Some v)
    <-> exists token s u,
          dict_get "session_token" (cookies request) = Some token
          /\ token <> ""
          /\ In s (sessions db)
          /\ Session.token s = token
          /\ now < Session.expires_at s
          /\ In u (users db)
          /\ User.id u = Session.user_id s
          /\ v = UserResponse.from_attributes u.
Proof.
  intros v. split.
  - destruct (dict_get "session_token" (cookies request)) as [token|] eqn:Hc;
      [|unfold get_current_user_from_request; rewrite Hc; discriminate].
    destruct (String.eqb_spec token "") as [->|Hne];
      [unfold get_current_user_from_request; rewrite Hc; discriminate|].
    rewrite (current_user_of_session now request db Hc Hne).
    rewrite (get_session_by_token_run now token Hwf).
    unfold outcome; simpl.
    destruct (find (live now token) (sessions db)) as [s|] eqn:Es;
      [|discriminate].
    destruct (find _ (users db)) as [u|] eqn:Eu; [|discriminate].
    simpl. intros [= <-].
    apply find_some in Es as [Hs Hl]. apply live_true in Hl as [Ht Hlt].
    apply find_some in Eu as [Hu Hid]. apply Z.eqb_eq in Hid.
    exists token, s, u. auto 10.
  - intros (token & s & u & Hc & Hne & Hs & Ht & Hlt & Hu & Hid & ->).
    rewrite (current_user_of_session now request db Hc Hne).
    rewrite (get_session_by_token_run now token Hwf).
    unfold outcome; simpl.
    rewrite (find_live now token s (proj1 Hwf) Hs); [|apply live_true; auto].
    rewrite <- Hid. now rewrite (find_user_by_id u (proj1 Hwf) Hu).
Qed.
End CurrentUser.

(** ** Login and logout *)

Section Login.
Context {bcrypt : Hasher}.

(** A request that bears the cookie of a session just created resolves to
    the identity, until the session expires. *)
Lemma request_after_create_session now now' token request (db : DB)
    (u : User.t) :
  wf db -> In u (users db) ->
  (forall s, In s (sessions db) -> Session.token s <> token) ->
  dict_get "session_token" (cookies request) = Some token ->
  token <> "" ->
  now' < now + timedelta_hours 24 ->
  let db' := mkDB (users db)
               (sessions db ++ [new_session now token (User.id u) db])
               (reset_tokens db) in
  get_current_user_from_request now' request db'
  = (inr (Some (UserResponse.from_attributes u)), db').
Proof.
  intros Hwf Hu Hfresh Hc Hne Hlt db'.
  rewrite (current_user_of_session now' request db' Hc Hne).
  unfold db'. rewrite resolve_new_session; auto.
Qed.

(** X5. A failed login is the same whether the email is unknown or the
    password is wrong: the page "Invalid email or password", and a store
    left as it was (no session is made). *)
Theorem login_failure_uniform now token mail_ok request email password
    (db : DB) (Hwf : wf db)
    (Hbad : forall u, In u (users db) -> User.email u = email ->
                      verify_password password (User.hashed_password u) = false) :
  login now token mail_ok request email password db
  = (inr (TemplateResponse "login.html"
            [("request", VRequest);
             ("error", VStr "Invalid email or password")]), db).
Proof.
  unfold login, try_except, bind.
  rewrite (authenticate_user_run email password Hwf).
  destruct (find _ (users db)) as [u|] eqn:Ef; [|reflexivity].
  apply find_some in Ef as [Hu He]. apply String.eqb_eq in He.
  now rewrite (Hbad u Hu He).
Qed.

(** X6. A successful login creates one session, redirects to the home
    page and sets the cookie [session_token] to the session's token, HTTP
    only, for 86400 seconds, which is the lifetime of the session; a later
    request that bears the cookie has the identity as its current user
    until the session expires. *)
Theorem login_then_request now token mail_ok request password (db : DB)
    (u : User.t) (Hwf : wf db) (Hu : In u (users db))
    (Hver : verify_password password (User.hashed_password u) = true)
    (Hfresh : forall s, In s (sessions db) -> Session.token s <> token)
    (Hne : token <> "") :
  let db' := mkDB (users db)
               (sessions db ++ [new_session now token (User.id u) db])
               (reset_tokens db) in
  login now token mail_ok request (User.email u) password db
  = (inr (RedirectResponse "/" 302
            (Some (mkCookie "session_token" token true false "lax" 86400))
            None), db')
  /\ 86400 * 1000000 = timedelta_hours 24
  /\ (forall now' request',
         dict_get "session_token" (cookies request') = Some token ->
         now' < now + timedelta_hours 24 ->
         get_current_user_from_request now' request' db'
         = (inr (Some (UserResponse.from_attributes u)), db')).
Proof.
  intros db'. split; [|split; [reflexivity|]].
  - unfold login, try_except, bind.
    rewrite (authenticate_user_run (User.email u) password Hwf).
    rewrite (find_user_by_email u (proj1 Hwf) Hu), Hver.
    change (UserResponse.id (UserResponse.from_attributes u)) with (User.id u).
    rewrite create_session_run; [|exact Hwf|exact Hu|exact Hfresh].
    reflexivity.
  - intros now' request' Hc Hlt.
    apply request_after_create_session; assumption.
Qed.

(** X9. Logging out with the cookie of a stored session removes that
    session and no other row, and redirects to the home page deleting the
    cookie; afterwards a request that bears the cookie has no current
    user, at any instant.  Without the cookie nothing is written. *)
Theorem logout_then_request request token (db : DB) (Huk : unique_keys db)
    (Hc : dict_get "session_token" (cookies request) = Some token)
    (Hne : token <> "") :
  let res := logout request db in
  outcome res = inr (RedirectResponse "/" 302 None (Some "session_token"))
  /\ (forall s, In s (sessions (store res))
                <-> In s (sessions db) /\ Session.token s <> token)
  /\ users (store res) = users db
  /\ reset_tokens (store res) = reset_tokens db
  /\ (forall now' request',
         dict_get "session_token" (cookies request') = Some token ->
         get_current_user_from_request now' request' (store res)
         = (inr None, store res)).
Proof.
  intros res.
  assert (Hres : res
                 = (inr (RedirectResponse "/" 302 None (Some "session_token")),
                    match find (fun s => Session.token s =? token) (sessions db) with
                    | None => db
                    | Some s => without_session s db
                    end)).
  { unfold res, logout. rewrite Hc.
    apply String.eqb_neq in Hne. rewrite Hne.
    unfold bind at 1. unfold bind at 1.
    rewrite (delete_session_run token Huk).
    destruct (find _ (sessions db)); reflexivity. }
  assert (Hrows : forall s, In s (sessions (store res))
                            <-> In s (sessions db) /\ Session.token s <> token).
  { rewrite Hres. unfold store; simpl.
    destruct (find (fun s => Session.token s =? token) (sessions db))
      as [s0|] eqn:Ef.
    - apply find_some in Ef as [Hs0 Ht0]. apply String.eqb_eq in Ht0.
      intros s. rewrite (without_session_rows s0 Huk Hs0 s).
      split; intros [Hs Hx]; split; auto.
      + intros Ht. apply Hx.
        apply (key_injective Session.token (sessions db)); auto; [apply Huk|].
        congruence.
      + intros ->. now apply Hx.
    - intros s. split; [|tauto]. intros Hs. split; auto.
      apply String.eqb_neq. apply (find_none _ _ Ef s Hs). }
  split; [now rewrite Hres|]. split; [exact Hrows|].
  split; [rewrite Hres; unfold store; simpl; now destruct (find _ (sessions db))|].
  split; [rewrite Hres; unfold store; simpl; now destruct (find _ (sessions db))|].
  intros now' request' Hc'.
  rewrite (current_user_of_session now' request' (store res) Hc' Hne).
  unfold get_session_by_token, bind, select_sessions, outcome.
  rewrite filter_none; [reflexivity|].
  intros s Hs. apply Hrows in Hs as [_ Ht].
  apply String.eqb_neq in Ht. now rewrite Ht.
Qed.
End Login.

(** ** Signup *)

Section Signup.
Context {bcrypt : Hasher}.

(** Registration with a free email and fields within the limits of the
    view: the row is appended and the store stays well formed. *)
Lemma create_user_fresh now salt mail_ok d (db : DB) :
  wf db ->
  (forall u, In u (users db) -> User.email u <> UserCreate.email d) ->
  let row := new_user now (hash_password salt (UserCreate.password d)) d db in
  let db1 := mkDB (users db ++ [row]) (sessions db) (reset_tokens db) in
  UserResponse.constraints row = true ->
  create_user now salt mail_ok d db = (inr (UserResponse.from_attributes row), db1)
  /\ wf db1.
Proof.
  intros Hwf Hfree row db1 Hok.
  assert (Hrun : create_user now salt mail_ok d db
                 = (UserResponse.model_validate row, db1)).
  { rewrite (create_user_run now salt mail_ok d Hwf).
    rewrite find_absent; [reflexivity|].
    intros x Hx. apply String.eqb_neq. now apply Hfree. }
  split.
  - rewrite Hrun. unfold UserResponse.model_validate. now rewrite Hok.
  - pose proof (@unique_keys_add_user
                  (fun id => User.mk id (UserCreate.email d)
                     (Some (UserCreate.phone_country d))
                     (Some (UserCreate.phone_number d)) true false
                     (match UserCreate.role d with
                      | Some r => r
                      | None => UserRole.user
                      end)
                     (UserCreate.first_name d) (UserCreate.last_name d)
                     (hash_password salt (UserCreate.password d)) now now)
                  (fun n => eq_refl) db (proj1 Hwf)) as Huk.
    rewrite add_user_fresh in Huk; [|exact Hfree].
    split; [exact Huk|].
    unfold valid_rows, db1; simpl. apply Forall_app. split; [apply Hwf|].
    constructor; [exact Hok|constructor].
Qed.

(** X8. A signup with matching passwords, a valid country, a free email
    and fields within the limits registers the identity under the email,
    names and phone number with their surrounding blanks removed, logs it
    in (one session, the cookie [session_token]), and a later request
    that bears the cookie has the new identity as its current user until
    the session expires. *)
Theorem signup_then_request now now' salt mail_ok token request
    email first_name last_name password phone_country phone_number
    (c : PhoneCountry) (db : DB) (Hwf : wf db)
    (Hc : PhoneCountry_of_value phone_country = inr c)
    (Hfree : forall u, In u (users db) -> User.email u <> strip email)
    (Htok : forall s, In s (sessions db) -> Session.token s <> token)
    (Hne : token <> "") :
  let d := UserCreate.mk (strip email) (strip first_name) (strip last_name)
             password c (strip phone_number) (Some UserRole.user) in
  let row := new_user now (hash_password salt password) d db in
  let db' := mkDB (users db ++ [row])
               (sessions db ++ [new_session now' token (User.id row) db])
               (reset_tokens db) in
  UserResponse.constraints row = true ->
  signup now now' salt mail_ok token request email first_name last_name
    password password phone_country phone_number db
  = (inr (RedirectResponse "/" 302
            (Some (mkCookie "session_token" token true false "lax" 86400))
            None), db')
  /\ User.email row = strip email
  /\ User.is_active row = true
  /\ (forall now'' request',
         dict_get "session_token" (cookies request') = Some token ->
         now'' < now' + timedelta_hours 24 ->
         get_current_user_from_request now'' request' db'
         = (inr (Some (UserResponse.from_attributes row)), db')).
Proof.
  intros d row db' Hok.
  destruct (@create_user_fresh now salt mail_ok d db Hwf Hfree Hok)
    as [Hrun Hwf1].
  fold row in Hrun, Hwf1.
  set (db1 := mkDB (users db ++ [row]) (sessions db) (reset_tokens db)) in *.
  assert (Hrow : In row (users db1)).
  { unfold db1; simpl. apply in_or_app. right. now left. }
  split; [|split; [reflexivity|split; [reflexivity|]]].
  - unfold signup, try_except. rewrite String.eqb_refl, Hc. simpl.
    unfold bind. fold d. rewrite Hrun.
    assert (Hcs : create_session now' token (User.id row) db1
                  = (inr (joined (new_session now' token (User.id row) db1) row),
                     mkDB (users db1)
                       (sessions db1 ++ [new_session now' token (User.id row) db1])
                       (reset_tokens db1)))
      by (apply create_session_run; assumption).
    change (create_session now' token _ _)
      with (create_session now' token (User.id row) db1).
    rewrite Hcs. reflexivity.
  - intros now'' request' Hck Hlt.
    change db' with (mkDB (users db1)
                       (sessions db1 ++ [new_session now' token (User.id row) db1])
                       (reset_tokens db1)).
    apply request_after_create_session; assumption.
Qed.
End Signup.

(** ** The password reset pages *)

Section ResetPages.
Context {bcrypt : Hasher}.

(** X10. The answer to a reset request does not tell whether the email
    is registered: with a freshly drawn token the page is the same generic
    confirmation for a known and for an unknown email, whether or not the
    mail went out.  Only the store differs: one unconsumed token more when
    the email is known, nothing when it is not. *)
Theorem forgot_password_uniform now token request (db : DB) (Hwf : wf db)
    (Hfresh : forall r, In r (reset_tokens db) ->
                        PasswordResetToken.token r <> token) :
  forall email mail_ok,
    let res := forgot_password now token mail_ok request email db in
    outcome res
    = inr (TemplateResponse "forgot-password.html"
             [("request", VRequest);
              ("success",
               VStr "If an account with that email exists, we've sent you a password reset link.")])
    /\ ((forall u, In u (users db) -> User.email u <> email) ->
        store res = db)
    /\ (forall u, In u (users db) -> User.email u = email ->
          store res
          = mkDB (users db) (sessions db)
              (reset_tokens db ++ [new_reset_token now token (User.id u) db])).
Proof.
  intros email mail_ok res. subst res.
  unfold forgot_password, try_except, create_password_reset_token, bind.
  rewrite (get_user_by_email_run email Hwf).
  destruct (find (fun u => User.email u =? email) (users db)) as [u|] eqn:Ef.
  - apply find_some in Ef as [Hu He]. apply String.eqb_eq in He. simpl.
    rewrite add_reset_token_fresh; [|exact Hfresh].
    unfold send_password_reset_email, ret, outcome, store.
    destruct mail_ok; simpl.
    + split; [reflexivity|]. split.
      * intros Hnone. now apply Hnone in Hu.
      * intros u' Hu' He'.
        rewrite (key_injective User.email (users db) u' u); auto;
          [apply Hwf|congruence].
    + split; [reflexivity|]. split.
      * intros Hnone. now apply Hnone in Hu.
      * intros u' Hu' He'.
        rewrite (key_injective User.email (users db) u' u); auto;
          [apply Hwf|congruence].
  - simpl. unfold outcome, store; simpl.
    split; [reflexivity|]. split; [reflexivity|].
    intros u Hu He. apply (find_none _ _ Ef) in Hu.
    apply String.eqb_neq in Hu. contradiction.
Qed.

(** X11. The reset page reports success exactly when the confirmation
    equals the new password, the password has at least 8 characters, and
    the controller's conditions hold (a stored token matches, is unexpired
    and unconsumed, and its identity is stored).  In every other case it
    answers with an error page and the store is left as it was, so a
    rejected password does not consume the token. *)
Theorem reset_password_route_iff now salt mail_ok request token
    new_password confirm_password (db : DB) (Huk : unique_keys db) :
  let res := reset_password_route now salt mail_ok request token
               new_password confirm_password db in
  (outcome res = inr reset_done
   <-> new_password = confirm_password
       /\ (8 <= String.length new_password)%nat
       /\ exists r u,
            In r (reset_tokens db)
            /\ PasswordResetToken.token r = token
            /\ now < PasswordResetToken.expires_at r
            /\ PasswordResetToken.is_used r = false
            /\ In u (users db)
            /\ User.id u = PasswordResetToken.user_id r)
  /\ (outcome res <> inr reset_done ->
      store res = db /\ exists name context,
        outcome res = inr (TemplateResponse name context)
        /\ In "error" (map fst context))
  /\ (new_password <> confirm_password
      \/ (String.length new_password < 8)%nat ->
      store res = db).
Proof.
  intros res. subst res. unfold reset_password_route, try_except.
  destruct (String.eqb_spec new_password confirm_password) as [Heq|Hneq];
    simpl.
  2:{ unfold outcome, store, ret; simpl.
      split; [split; [discriminate|tauto]|].
      split; [|reflexivity].
      intros _. split; [reflexivity|]. do 2 eexists.
      split; [reflexivity|]. simpl. tauto. }
  destruct (Nat.ltb_spec (String.length new_password) 8) as [Hlt|Hge].
  { unfold outcome, store, ret; simpl.
    split; [split; [discriminate|intros (_ & H & _); lia]|].
    split; [|reflexivity].
    intros _. split; [reflexivity|]. do 2 eexists.
    split; [reflexivity|]. simpl. tauto. }
  unfold bind. rewrite (reset_password_run now salt mail_ok token new_password Huk).
  assert (Hfwd : forall r u,
             In r (reset_tokens db)
             /\ PasswordResetToken.token r = token
             /\ now < PasswordResetToken.expires_at r
             /\ PasswordResetToken.is_used r = false
             /\ In u (users db)
             /\ User.id u = PasswordResetToken.user_id r ->
             find (redeemable now token) (reset_tokens db) = Some r
             /\ find (fun x => (User.id x =? PasswordResetToken.user_id r)%Z)
                  (users db) = Some u).
  { intros r u (Hr & Ht & He & Hu & Hin & Hid). split.
    - apply find_redeemable; auto. now apply redeemable_true.
    - rewrite <- Hid. now apply find_user_by_id. }
  destruct (find (redeemable now token) (reset_tokens db)) as [r|] eqn:Er.
  - destruct (find (fun x => (User.id x =? PasswordResetToken.user_id r)%Z)
                (users db)) as [u|] eqn:Eu.
    + unfold outcome, store, ret; simpl.
      split; [split|split].
      * intros _. split; [exact Heq|]. split; [exact Hge|].
        exists r, u.
        apply find_some in Er as [Hr Hp]. apply redeemable_true in Hp.
        apply find_some in Eu as [Hu Hid]. apply Z.eqb_eq in Hid. tauto.
      * reflexivity.
      * intros H. now contradiction H.
      * intros [H|H]; [contradiction|lia].
    + unfold outcome, store, ret; simpl.
      split; [split; [discriminate|]|split; [|reflexivity]].
      * intros (_ & _ & r' & u' & H).
        destruct (Hfwd r' u' H) as [[= <-] Hu']. congruence.
      * intros _. split; [reflexivity|]. do 2 eexists.
        split; [reflexivity|]. simpl. tauto.
  - unfold outcome, store, ret; simpl.
    split; [split; [discriminate|]|split; [|reflexivity]].
    + intros (_ & _ & r' & u' & H). destruct (Hfwd r' u' H) as [[=] _].
    + intros _. split; [reflexivity|]. do 2 eexists.
      split; [reflexivity|]. simpl. tauto.
Qed.
End ResetPages.

(** ** Rows that stay *)

Lemma same_profile_refl u : same_profile u u.
Proof. repeat split. Qed.

Lemma same_profile_assign now h u x :
  same_profile u x -> same_profile u (assign_hashed_password now h x).
Proof.
  unfold assign_hashed_password.
  destruct (User.hashed_password x =? h); [tauto|].
  unfold same_profile; simpl. tauto.
Qed.

Lemma keeps_identity_commit_reset u now x h r :
  preserves (keeps_identity u) (commit_reset now x h r).
Proof.
  intros db (u' & Hin & Hsame). unfold commit_reset, store; simpl.
  exists (if (User.id u' =? User.id x)%Z
          then assign_hashed_password now h u' else u').
  split.
  - apply (in_map (fun y => if (User.id y =? User.id x)%Z
                            then assign_hashed_password now h y else y)).
    exact Hin.
  - destruct (User.id u' =? User.id x)%Z; auto.
    now apply same_profile_assign.
Qed.

Lemma keeps_identity_add_user u row : preserves (keeps_identity u) (add_user row).
Proof.
  intros db (u' & Hin & Hsame). unfold add_user, store.
  destruct (existsb _ _); simpl; exists u'; split; auto.
  apply in_or_app. now left.
Qed.

Lemma keeps_reset_token_commit_reset r0 now x h r :
  preserves (keeps_reset_token r0) (commit_reset now x h r).
Proof.
  intros db (r' & Hin & Hsame). unfold commit_reset, store; simpl.
  exists (if (PasswordResetToken.id r' =? PasswordResetToken.id r)%Z
          then mark_used r' else r').
  split.
  - apply (in_map (fun y => if (PasswordResetToken.id y
                                =? PasswordResetToken.id r)%Z
                            then mark_used y else y)).
    exact Hin.
  - destruct (PasswordResetToken.id r' =? PasswordResetToken.id r)%Z; auto.
    unfold same_token in *; simpl. tauto.
Qed.

Lemma keeps_reset_token_add r0 row :
  preserves (keeps_reset_token r0) (add_reset_token row).
Proof.
  intros db (r' & Hin & Hsame). unfold add_reset_token, store.
  destruct (existsb _ _); simpl; exists r'; split; auto.
  apply in_or_app. now left.
Qed.

Section Persistence.
Context {bcrypt : Hasher}.

(** X14. In every store reached from the empty one by lifecycle calls,
    whatever their arguments and outcomes, primary keys, emails, session
    tokens and reset tokens are unique. *)
Theorem keys_stay_unique (calls : list call) :
  unique_keys (exec_all calls empty_db).
Proof.
  apply unique_keys_exec_all. constructor; constructor.
Qed.

(** X15. No lifecycle call deletes an identity or changes its key, email,
    phone, names, role, admin or active flag: after any history a stored
    identity is still stored, possibly with another credential. *)
Theorem identities_persist (calls : list call) (db : DB) (u : User.t)
    (Hu : In u (users db)) :
  exists u', In u' (users (exec_all calls db)) /\ same_profile u u'.
Proof.
  apply (@exec_all_invariant _ (keeps_identity u)).
  - intros row _. apply keeps_identity_add_user.
  - intros row _ d H. unfold add_session, store.
    destruct (existsb _ _); exact H.
  - intros row _ d H. unfold add_reset_token, store.
    destruct (existsb _ _); exact H.
  - intros s d H. exact H.
  - intros. apply keeps_identity_commit_reset.
  - exists u. split; [exact Hu|apply same_profile_refl].
Qed.

(** X16. No lifecycle call deletes a reset token or changes its key,
    token, owner or expiry, and none makes a consumed token unconsumed:
    after any history a stored reset token is still stored, consumed if it
    was. *)
Theorem reset_tokens_persist (calls : list call) (db : DB)
    (r : PasswordResetToken.t) (Hr : In r (reset_tokens db)) :
  exists r', In r' (reset_tokens (exec_all calls db)) /\ same_token r r'.
Proof.
  apply (@exec_all_invariant _ (keeps_reset_token r)).
  - intros row _ d H. unfold add_user, store.
    destruct (existsb _ _); exact H.
  - intros row _ d H. unfold add_session, store.
    destruct (existsb _ _); exact H.
  - intros row _. apply keeps_reset_token_add.
  - intros s d H. exact H.
  - intros. apply keeps_reset_token_commit_reset.
  - exists r. split; [exact Hr|]. repeat split. tauto.
Qed.
End Persistence.

(** ** How the lifecycle methods compose *)

Lemma find_filter_implied (A : Type) (p q : A -> bool) (l : list A) :
  (forall x, p x = true -> q x = true) -> find p (filter q l) = find p l.
Proof.
  intros H. induction l as [|a l IH]; [reflexivity|]. simpl.
  destruct (q a) eqn:Eq; simpl.
  - now rewrite IH.
  - destruct (p a) eqn:Ep; [|exact IH].
    rewrite (H a Ep) in Eq. discriminate.
Qed.

Lemma constraints_assign now h x :
  UserResponse.constraints (assign_hashed_password now h x)
  = UserResponse.constraints x.
Proof.
  unfold assign_hashed_password.
  destruct (User.hashed_password x =? h); reflexivity.
Qed.

Lemma wf_commit_reset now u h r : preserves wf (commit_reset now u h r).
Proof.
  intros db [Huk Hv]. split; [now apply unique_keys_commit_reset|].
  unfold valid_rows, commit_reset, store in *; simpl.
  rewrite Forall_forall in *. intros x Hx.
  apply in_map_iff in Hx as (y & <- & Hy).
  destruct (User.id y =? User.id u)%Z; [rewrite constraints_assign|]; auto.
Qed.

Lemma wf_add_reset_token row :
  (forall n, PasswordResetToken.id (row n) = n) ->
  preserves wf (add_reset_token row).
Proof.
  intros Hid db [Huk Hv]. split; [now apply unique_keys_add_reset_token|].
  unfold add_reset_token, store. destruct (existsb _ _); exact Hv.
Qed.

Section Compositions.
Context {bcrypt : Hasher}.

(** A redeemable token whose identity is stored redeems. *)
Lemma reset_password_succeeds now salt ok pw (db : DB) r u :
  unique_keys db -> In r (reset_tokens db) ->
  now < PasswordResetToken.expires_at r ->
  PasswordResetToken.is_used r = false ->
  In u (users db) -> User.id u = PasswordResetToken.user_id r ->
  reset_password now salt ok (PasswordResetToken.token r) pw db
  = (inr true, after_reset now (hash_password salt pw) u r db).
Proof.
  intros Huk Hr Hlt Hused Hu Hid.
  rewrite (reset_password_run now salt ok (PasswordResetToken.token r) pw Huk).
  rewrite (find_redeemable now (PasswordResetToken.token r) r Huk Hr);
    [|apply redeemable_true; auto].
  rewrite <- Hid, (find_user_by_id u Huk Hu). reflexivity.
Qed.

(** X12. After a registration that returns a view, looking the identity
    up by its email and by the key of the view both return that view; the
    key is one no stored identity had, and sessions and reset tokens are
    untouched. *)
Theorem register_then_lookup now salt mail_ok d (db : DB) (Hwf : wf db)
    (Hfree : forall u, In u (users db) -> User.email u <> UserCreate.email d)
    (Hok : UserResponse.constraints
             (new_user now (hash_password salt (UserCreate.password d)) d db)
           = true) :
  let res := create_user now salt mail_ok d db in
  let v := UserResponse.from_attributes
             (new_user now (hash_password salt (UserCreate.password d)) d db) in
  outcome res = inr v
  /\ get_user_by_email (UserCreate.email d) (store res)
     = (inr (Some v), store res)
  /\ get_user_by_id (UserResponse.id v) (store res) = (inr (Some v), store res)
  /\ (forall u, In u (users db) -> User.id u <> UserResponse.id v)
  /\ sessions (store res) = sessions db
  /\ reset_tokens (store res) = reset_tokens db.
Proof.
  intros res v. subst res.
  destruct (@create_user_fresh _ now salt mail_ok d db Hwf Hfree Hok)
    as [Hrun Hwf1].
  rewrite Hrun. unfold outcome, store; simpl.
  set (row := new_user now (hash_password salt (UserCreate.password d)) d db)
    in *.
  set (db1 := mkDB (users db ++ [row]) (sessions db) (reset_tokens db)) in *.
  assert (Hrow : In row (users db1)).
  { unfold db1; simpl. apply in_or_app. right. now left. }
  split; [reflexivity|]. split; [|split; [|split; [|split; reflexivity]]].
  - assert (H : get_user_by_email (User.email row) db1
                = (inr (Some (UserResponse.from_attributes row)), db1)).
    { rewrite (get_user_by_email_run (User.email row) Hwf1).
      now rewrite (find_user_by_email row (proj1 Hwf1) Hrow). }
    exact H.
  - assert (H : get_user_by_id (User.id row) db1
                = (inr (Some (UserResponse.from_attributes row)), db1)).
    { rewrite (get_user_by_id_run (User.id row) Hwf1).
      now rewrite (find_user_by_id row (proj1 Hwf1) Hrow). }
    exact H.
  - intros u Hu Heq. apply (next_id_fresh (map User.id (users db))).
    apply in_map_iff. exists u. split; [exact Heq|exact Hu].
Qed.

(** X13. With a hasher whose hashes verify the password they were made
    from: the password given at registration authenticates the new
    identity, and after a successful reset the new password authenticates
    the identity of the token. *)
Theorem credentials_round_trip (db : DB) (Hwf : wf db)
    (Hlaw : forall password salt,
        checkpw password (hashpw password salt) = true) :
  (forall now salt mail_ok d,
      (forall u, In u (users db) -> User.email u <> UserCreate.email d) ->
      let row := new_user now (hash_password salt (UserCreate.password d)) d db in
      UserResponse.constraints row = true ->
      outcome (authenticate_user (UserCreate.email d) (UserCreate.password d)
                 (store (create_user now salt mail_ok d db)))
      = inr (Some (UserResponse.from_attributes row)))
  /\ (forall now salt mail_ok new_password r u,
         In r (reset_tokens db) ->
         now < PasswordResetToken.expires_at r ->
         PasswordResetToken.is_used r = false ->
         In u (users db) -> User.id u = PasswordResetToken.user_id r ->
         outcome (authenticate_user (User.email u) new_password
                    (store (reset_password now salt mail_ok
                              (PasswordResetToken.token r) new_password db)))
         = inr (Some (UserResponse.from_attributes
                        (assign_hashed_password now
                           (hash_password salt new_password) u)))).
Proof.
  split.
  - intros now salt mail_ok d Hfree row Hok.
    destruct (@create_user_fresh _ now salt mail_ok d db Hwf Hfree Hok)
      as [Hrun Hwf1].
    rewrite Hrun. unfold store; simpl. fold row in Hwf1 |- *.
    set (db1 := mkDB (users db ++ [row]) (sessions db) (reset_tokens db)) in *.
    assert (Hrow : In row (users db1)).
    { unfold db1; simpl. apply in_or_app. right. now left. }
    rewrite (authenticate_user_run (UserCreate.email d) (UserCreate.password d)
               Hwf1).
    change (UserCreate.email d) with (User.email row).
    rewrite (find_user_by_email row (proj1 Hwf1) Hrow).
    unfold outcome; simpl. unfold verify_password, hash_password.
    now rewrite Hlaw.
  - intros now salt mail_ok new_password r u Hr Hlt Hused Hu Hid.
    rewrite (@reset_password_succeeds now salt mail_ok new_password db r u
               (proj1 Hwf) Hr Hlt Hused Hu Hid).
    unfold store; simpl.
    set (h := hash_password salt new_password).
    assert (Hwf1 : wf (after_reset now h u r db))
      by exact (@wf_commit_reset now u h r db Hwf).
    assert (Hu1 : In (assign_hashed_password now h u)
                     (users (after_reset now h u r db))).
    { unfold after_reset; simpl. apply in_map_iff. exists u.
      now rewrite Z.eqb_refl. }
    rewrite (authenticate_user_run (User.email u) new_password Hwf1).
    replace (User.email u) with (User.email (assign_hashed_password now h u))
      by apply assign_hashed_password_keys.
    rewrite (find_user_by_email _ (proj1 Hwf1) Hu1).
    rewrite assign_hashed_password_value.
    unfold outcome; simpl. unfold verify_password, h, hash_password.
    now rewrite Hlaw.
Qed.

(** X17. The sweep is invisible to session resolution: at the instant of
    the sweep and at every later one, each token resolves after the sweep
    exactly as it would have without it. *)
Theorem sweep_invisible now now' token (db : DB) (Hwf : wf db)
    (Hle : now <= now') :
  outcome (get_session_by_token now' token
             (store (cleanup_expired_sessions now db)))
  = outcome (get_session_by_token now' token db).
Proof.
  rewrite (cleanup_expired_sessions_run now (proj1 Hwf)). unfold store; simpl.
  assert (Hwf1 : wf (mkDB (users db)
                       (filter (fun s => (now <? Session.expires_at s)%Z)
                          (sessions db))
                       (reset_tokens db))).
  { destruct Hwf as [[H1 H2 H3 H4 H5 H6] Hv]. split; [|exact Hv].
    constructor; simpl; auto using NoDup_map_filter. }
  rewrite (get_session_by_token_run now' token Hwf1).
  rewrite (get_session_by_token_run now' token Hwf).
  unfold outcome; simpl.
  rewrite find_filter_implied; [reflexivity|].
  intros s Hs. apply live_true in Hs as [_ Hlt]. apply Z.ltb_lt. lia.
Qed.
End Compositions.

Section NothingInvalidated.
Context {bcrypt : Hasher}.


End NothingInvalidated.

(** ** The further theorems at concrete stores *)

Lemma wf_empty_db : wf empty_db.
Proof. split; constructor; constructor. Qed.

Lemma length_append (a b : string) :
  String.length (a ++ b)%string = (String.length a + String.length b)%nat.
Proof. induction a as [|c a IH]; simpl; [reflexivity|now rewrite IH]. Qed.

Lemma length_substring_prefix (n : nat) (s : string) :
  (n <= String.length s)%nat -> String.length (substring 0 n s) = n.
Proof.
  revert s. induction n as [|n IH]; intros s Hle.
  - destruct s; reflexivity.
  - destruct s as [|c s]; simpl in *; [lia|].
    rewrite IH; [reflexivity|lia].
Qed.

Lemma substring_whole (s : string) : substring 0 (String.length s) s = s.
Proof. induction s as [|c s IH]; simpl; [reflexivity|now rewrite IH]. Qed.

Lemma substring_suffix (a p : string) :
  substring (String.length a) (String.length p) (a ++ p)%string = p.
Proof.
  induction a as [|c a IH]; simpl; [apply substring_whole|exact IH].
Qed.

(** [plain_hasher] verifies the password a hash was made from. *)
Lemma plain_hasher_law (password salt : string) :
  @checkpw plain_hasher password (@hashpw plain_hasher password salt) = true.
Proof.
  simpl. set (a := substring 0 4 (salt ++ "....")%string).
  assert (Ha : String.length a = 4%nat).
  { apply length_substring_prefix. rewrite length_append. simpl. lia. }
  rewrite length_append, Ha.
  replace (4 + String.length password - 4)%nat with (String.length password)
    by lia.
  rewrite <- Ha at 1. rewrite substring_suffix. apply String.eqb_refl.
Qed.

(** The request with the cookie of alice's session has her as its user. *)
Lemma current_user_iff_witness :
  wf db_session
  /\ (outcome (get_current_user_from_request 2000 req_tok db_session)
      = inr (Some (UserResponse.from_attributes alice_row))
      <-> exists token s u,
            dict_get "session_token" (cookies req_tok) = Some token
            /\ token <> ""
            /\ In s (sessions db_session)
            /\ Session.token s = token
            /\ 2000 < Session.expires_at s
            /\ In u (users db_session)
            /\ User.id u = Session.user_id s
            /\ UserResponse.from_attributes alice_row
               = UserResponse.from_attributes u).
Proof.
  split; [exact wf_db_session|].
  exact (@current_user_iff 2000 req_tok db_session wf_db_session
           (UserResponse.from_attributes alice_row)).
Defined.

(** A login for an email nobody has. *)
Lemma login_failure_uniform_witness :
  wf db_alice
  /\ (forall u, In u (users db_alice) -> User.email u = "nobody@example.com" ->
                verify_password "pw12345678" (User.hashed_password u) = false)
  /\ login 2000 "tok" true req_plain "nobody@example.com" "pw12345678" db_alice
     = (inr (TemplateResponse "login.html"
               [("request", VRequest);
                ("error", VStr "Invalid email or password")]), db_alice).
Proof.
  split; [exact wf_db_alice|].
  assert (H : forall u, In u (users db_alice) ->
                        User.email u = "nobody@example.com" ->
                        verify_password "pw12345678" (User.hashed_password u)
                        = false).
  { intros u [<-|[]] He. discriminate He. }
  split; [exact H|].
  exact (@login_failure_uniform plain_hasher 2000 "tok" true req_plain
           "nobody@example.com" "pw12345678" db_alice wf_db_alice H).
Defined.

(** Alice logs in and her session is [db_session]. *)
Lemma login_then_request_witness :
  wf db_alice
  /\ In alice_row (users db_alice)
  /\ verify_password "pw12345678" (User.hashed_password alice_row) = true
  /\ (forall s, In s (sessions db_alice) -> Session.token s <> "tok")
  /\ "tok" <> ""
  /\ login 1000 "tok" true req_plain "alice@example.com" "pw12345678" db_alice
     = (inr (RedirectResponse "/" 302
               (Some (mkCookie "session_token" "tok" true false "lax" 86400))
               None), db_session).
Proof.
  split; [exact wf_db_alice|].
  assert (Hu : In alice_row (users db_alice)) by (left; reflexivity).
  assert (Hf : forall s, In s (sessions db_alice) -> Session.token s <> "tok").
  { intros s []. }
  assert (Hne : "tok" <> "") by discriminate.
  split; [exact Hu|]. split; [reflexivity|]. split; [exact Hf|].
  split; [exact Hne|].
  exact (proj1 (@login_then_request plain_hasher 1000 "tok" true req_plain
                  "pw12345678" db_alice alice_row wf_db_alice Hu eq_refl Hf Hne)).
Defined.

(** Dora signs up with blanks around her email. *)
Lemma signup_then_request_witness :
  wf db_alice
  /\ PhoneCountry_of_value "ph" = inr ph
  /\ (forall u, In u (users db_alice) ->
                User.email u <> strip " dora@example.com ")
  /\ (forall s, In s (sessions db_alice) -> Session.token s <> "tok")
  /\ "tok" <> ""
  /\ User.email
       (new_user 2000 (hash_password "s5" "pw12345678") dora db_alice)
     = strip " dora@example.com ".
Proof.
  split; [exact wf_db_alice|]. split; [reflexivity|].
  assert (Hfree : forall u, In u (users db_alice) ->
                            User.email u <> strip " dora@example.com ").
  { intros u [<-|[]]. discriminate. }
  assert (Hf : forall s, In s (sessions db_alice) -> Session.token s <> "tok").
  { intros s []. }
  assert (Hne : "tok" <> "") by discriminate.
  split; [exact Hfree|]. split; [exact Hf|]. split; [exact Hne|].
  exact (proj1 (proj2 (@signup_then_request plain_hasher 2000 2001 "s5" true
                         "tok" req_plain " dora@example.com " " Dora" "Vale "
                         "pw12345678" "ph" "09181234567 " ph db_alice
                         wf_db_alice eq_refl Hfree Hf Hne eq_refl))).
Defined.

(** Alice logs out. *)
Lemma logout_then_request_witness :
  unique_keys db_session
  /\ dict_get "session_token" (cookies req_tok) = Some "tok"
  /\ "tok" <> ""
  /\ outcome (logout req_tok db_session)
     = inr (RedirectResponse "/" 302 None (Some "session_token")).
Proof.
  split; [exact (proj1 wf_db_session)|]. split; [reflexivity|].
  assert (Hne : "tok" <> "") by discriminate.
  split; [exact Hne|].
  exact (proj1 (@logout_then_request req_tok "tok" db_session
                  (proj1 wf_db_session) eq_refl Hne)).
Defined.

(** A reset request for alice and one for nobody get the same page. *)
Lemma forgot_password_uniform_witness :
  wf db_alice
  /\ (forall r, In r (reset_tokens db_alice) ->
                PasswordResetToken.token r <> "T")
  /\ outcome (forgot_password 2000 "T" false req_plain "alice@example.com"
                db_alice)
     = outcome (forgot_password 2000 "T" true req_plain "nobody@example.com"
                  db_alice).
Proof.
  split; [exact wf_db_alice|].
  assert (Hf : forall r, In r (reset_tokens db_alice) ->
                         PasswordResetToken.token r <> "T").
  { intros r []. }
  split; [exact Hf|].
  exact (eq_trans
           (proj1 (@forgot_password_uniform 2000 "T" req_plain db_alice
                     wf_db_alice Hf "alice@example.com" false))
           (eq_sym
              (proj1 (@forgot_password_uniform 2000 "T" req_plain db_alice
                        wf_db_alice Hf "nobody@example.com" true)))).
Defined.

(** A new password of seven characters leaves carol's token alone. *)
Lemma reset_password_route_iff_witness :
  unique_keys db_carol
  /\ (String.length "short77" < 8)%nat
  /\ store (reset_password_route 2500 "s3" true req_plain "T" "short77"
              "short77" db_carol)
     = db_carol.
Proof.
  split; [exact (proj1 wf_db_carol)|].
  assert (Hlt : (String.length "short77" < 8)%nat) by (simpl; lia).
  split; [exact Hlt|].
  exact (proj2 (proj2 (@reset_password_route_iff plain_hasher 2500 "s3" true
                         req_plain "T" "short77" "short77" db_carol
                         (proj1 wf_db_carol)))
           (or_intror Hlt)).
Defined.

(** Dora registers beside alice. *)
Lemma register_then_lookup_witness :
  wf db_alice
  /\ (forall u, In u (users db_alice) ->
                User.email u <> UserCreate.email dora)
  /\ UserResponse.constraints
       (new_user 2000 (hash_password "s5" (UserCreate.password dora)) dora
          db_alice) = true
  /\ outcome (create_user 2000 "s5" true dora db_alice)
     = inr (UserResponse.from_attributes
              (new_user 2000 (hash_password "s5" (UserCreate.password dora))
                 dora db_alice)).
Proof.
  split; [exact wf_db_alice|].
  assert (Hfree : forall u, In u (users db_alice) ->
                            User.email u <> UserCreate.email dora).
  { intros u [<-|[]]. discriminate. }
  split; [exact Hfree|]. split; [reflexivity|].
  exact (proj1 (@register_then_lookup plain_hasher 2000 "s5" true dora db_alice
                  wf_db_alice Hfree eq_refl)).
Defined.

(** Carol resets her password and authenticates with the new one. *)
Lemma credentials_round_trip_witness :
  wf db_carol
  /\ (forall password salt,
         @checkpw plain_hasher password (@hashpw plain_hasher password salt)
         = true)
  /\ outcome (authenticate_user "carol@example.com" "newpass1234"
                (store (reset_password 2500 "s3" true "T" "newpass1234"
                          db_carol)))
     = inr (Some (UserResponse.from_attributes
                    (assign_hashed_password 2500
                       (hash_password "s3" "newpass1234") carol_row))).
Proof.
  split; [exact wf_db_carol|]. split; [exact plain_hasher_law|].
  exact (proj2 (@credentials_round_trip plain_hasher db_carol wf_db_carol
                  plain_hasher_law)
           2500 "s3" true "newpass1234" carol_token carol_row
           (or_introl eq_refl) eq_refl eq_refl (or_introl eq_refl) eq_refl).
Defined.

(** Carol is still stored after [later_calls]. *)
Lemma identities_persist_witness :
  In carol_row (users db_carol)
  /\ exists u', In u' (users (exec_all later_calls db_carol))
                /\ same_profile carol_row u'.
Proof.
  assert (Hu : In carol_row (users db_carol)) by (left; reflexivity).
  split; [exact Hu|].
  exact (@identities_persist plain_hasher later_calls db_carol carol_row Hu).
Defined.

(** Carol's token is still stored after [later_calls]. *)
Lemma reset_tokens_persist_witness :
  In carol_token (reset_tokens db_carol)
  /\ exists r', In r' (reset_tokens (exec_all later_calls db_carol))
                /\ same_token carol_token r'.
Proof.
  assert (Hr : In carol_token (reset_tokens db_carol)) by (left; reflexivity).
  split; [exact Hr|].
  exact (@reset_tokens_persist plain_hasher later_calls db_carol carol_token Hr).
Defined.

(** Sweeping [db_stale] at 5000 changes no resolution at 6000. *)
Lemma sweep_invisible_witness :
  wf db_stale
  /\ 5000 <= 6000
  /\ outcome (get_session_by_token 6000 "tok"
                (store (cleanup_expired_sessions 5000 db_stale)))
     = outcome (get_session_by_token 6000 "tok" db_stale).
Proof.
  split; [exact wf_db_stale|].
  assert (Hle : 5000 <= 6000) by lia.
  split; [exact Hle|].
  exact (@sweep_invisible 5000 6000 "tok" db_stale wf_db_stale Hle).
Defined.



(** ** Edge behaviour of lookups, sessions and signup *)

Section Edges.
Context {bcrypt : Hasher}.

(** X21. On a well-formed store [get_user_by_id] and [get_user_by_email]
    return the view of the identity with that key, or that email, and
    [None] when there is none; neither writes. *)
Theorem lookup_iff (db : DB) (Hwf : wf db) :
  (forall user_id,
      store (get_user_by_id user_id db) = db
      /\ (forall v, outcome (get_user_by_id user_id db) = inr (Some v)
                    <-> exists u, In u (users db) /\ User.id u = user_id
                                  /\ v = UserResponse.from_attributes u)
      /\ ((forall u, In u (users db) -> User.id u <> user_id) ->
          outcome (get_user_by_id user_id db) = inr None))
  /\ (forall email,
         store (get_user_by_email email db) = db
         /\ (forall v, outcome (get_user_by_email email db) = inr (Some v)
                       <-> exists u, In u (users db) /\ User.email u = email
                                     /\ v = UserResponse.from_attributes u)
         /\ ((forall u, In u (users db) -> User.email u <> email) ->
             outcome (get_user_by_email email db) = inr None)).
Proof.
  split.
  - intros user_id. rewrite (get_user_by_id_run user_id Hwf).
    unfold outcome, store; simpl. split; [reflexivity|]. split.
    + intros v. split.
      * destruct (find _ (users db)) as [u|] eqn:Ef; [|discriminate].
        simpl. intros [= <-]. apply find_some in Ef as [Hu Hid].
        apply Z.eqb_eq in Hid. eauto.
      * intros (u & Hu & <- & ->).
        now rewrite (find_user_by_id u (proj1 Hwf) Hu).
    + intros Hnone. rewrite find_absent; [reflexivity|].
      intros x Hx. apply Z.eqb_neq. now apply Hnone.
  - intros email. rewrite (get_user_by_email_run email Hwf).
    unfold outcome, store; simpl. split; [reflexivity|]. split.
    + intros v. split.
      * destruct (find _ (users db)) as [u|] eqn:Ef; [|discriminate].
        simpl. intros [= <-]. apply find_some in Ef as [Hu He].
        apply String.eqb_eq in He. eauto.
      * intros (u & Hu & <- & ->).
        now rewrite (find_user_by_email u (proj1 Hwf) Hu).
    + intros Hnone. rewrite find_absent; [reflexivity|].
      intros x Hx. apply String.eqb_neq. now apply Hnone.
Qed.

(** X22. [create_session] does not check that the identity exists: for a
    key no stored identity has, and a fresh token, it commits the session
    and then raises [ValidationError], and the session it leaves resolves
    to nothing. *)
Theorem create_session_unknown_user now token user_id (db : DB)
    (Hwf : wf db)
    (Hnone : forall u, In u (users db) -> User.id u <> user_id)
    (Hfresh : forall s, In s (sessions db) -> Session.token s <> token) :
  let db' := mkDB (users db)
               (sessions db ++ [new_session now token user_id db])
               (reset_tokens db) in
  create_session now token user_id db = (inl ValidationError, db')
  /\ forall now', get_session_by_token now' token db' = (inr None, db').
Proof.
  intros db'.
  assert (Hwf' : wf db') by (apply wf_after_create_session; assumption).
  assert (Hfind : find (fun u => (User.id u =? user_id)%Z) (users db) = None).
  { apply find_absent. intros x Hx. apply Z.eqb_neq. now apply Hnone. }
  split.
  - unfold create_session, bind.
    rewrite add_session_fresh; [|exact Hfresh].
    fold (new_session now token user_id db). fold db'.
    rewrite (get_user_by_id_run user_id Hwf'). simpl.
    now rewrite Hfind.
  - intros now'. rewrite (get_session_by_token_run now' token Hwf').
    destruct (find (live now' token) (sessions db')) as [s|] eqn:Es;
      [|reflexivity].
    apply find_some in Es as [Hs Hl]. apply live_true in Hl as [Ht _].
    simpl in Hs. apply in_app_or in Hs as [Hs|[<-|[]]].
    + now apply Hfresh in Hs.
    + simpl. now rewrite Hfind.
Qed.

(** X23. Sweeping again changes nothing: after a sweep at one instant, a
    sweep at the same or an earlier instant removes no session and returns
    0. *)
Theorem sweep_idempotent now now' (db : DB) (Huk : unique_keys db)
    (Hle : now' <= now) :
  let db' := store (cleanup_expired_sessions now db) in
  cleanup_expired_sessions now' db' = (inr 0, db').
Proof.
  intros db'. unfold db'.
  rewrite (cleanup_expired_sessions_run now Huk). unfold store; simpl.
  assert (Huk' : unique_keys
                   (mkDB (users db)
                      (filter (fun s => (now <? Session.expires_at s)%Z)
                         (sessions db))
                      (reset_tokens db))).
  { destruct Huk as [H1 H2 H3 H4 H5 H6].
    constructor; simpl; auto using NoDup_map_filter. }
  rewrite (cleanup_expired_sessions_run now' Huk'). simpl.
  rewrite !filter_filter.
  rewrite (filter_none (fun x => (now <? Session.expires_at x)%Z
                               && (Session.expires_at x <=? now')%Z)).
  - simpl. f_equal. f_equal. apply filter_ext. intros s.
    destruct (now <? Session.expires_at s)%Z eqn:E1; simpl; [|reflexivity].
    apply Z.ltb_lt in E1. apply Z.ltb_lt. lia.
  - intros s _. destruct (now <? Session.expires_at s)%Z eqn:E1; simpl;
      [|reflexivity].
    apply Z.ltb_lt in E1. apply Z.leb_gt. lia.
Qed.

(** X20. Signup does not check the lengths that the view checks: with
    matching passwords, a valid country and a free email, but a phone
    number or a name over the limit of the view, the identity is persisted
    and the answer is still an error page, with no session and no
    cookie. *)
Theorem signup_over_limit now now' salt mail_ok token request
    email first_name last_name password phone_country phone_number
    (c : PhoneCountry) (db : DB) (Hwf : wf db)
    (Hc : PhoneCountry_of_value phone_country = inr c)
    (Hfree : forall u, In u (users db) -> User.email u <> strip email) :
  let d := UserCreate.mk (strip email) (strip first_name) (strip last_name)
             password c (strip phone_number) (Some UserRole.user) in
  let row := new_user now (hash_password salt password) d db in
  UserResponse.constraints row = false ->
  signup now now' salt mail_ok token request email first_name last_name
    password password phone_country phone_number db
  = (inr (TemplateResponse "signup.html"
            [("request", VRequest); ("error", VStrOf ValidationError)]),
     mkDB (users db ++ [row]) (sessions db) (reset_tokens db)).
Proof.
  intros d row Hbad.
  assert (Hrun : create_user now salt mail_ok d db
                 = (inl ValidationError,
                    mkDB (users db ++ [row]) (sessions db) (reset_tokens db))).
  { rewrite (create_user_run now salt mail_ok d Hwf).
    rewrite find_absent.
    - cbv zeta.
      change (new_user now (hash_password salt (UserCreate.password d)) d db)
        with row.
      unfold UserResponse.model_validate. now rewrite Hbad.
    - intros x Hx. apply String.eqb_neq. now apply Hfree. }
  unfold signup, try_except. rewrite String.eqb_refl, Hc. simpl.
  unfold bind.
  change (create_user now salt mail_ok _ db)
    with (create_user now salt mail_ok d db).
  rewrite Hrun. reflexivity.
Qed.
End Edges.

(** Looking alice up by an unknown key. *)
Lemma lookup_iff_witness :
  wf db_alice
  /\ (forall u, In u (users db_alice) -> User.id u <> 7)
  /\ outcome (get_user_by_id 7 db_alice) = inr None.
Proof.
  split; [exact wf_db_alice|].
  assert (H : forall u, In u (users db_alice) -> User.id u <> 7).
  { intros u [<-|[]]. discriminate. }
  split; [exact H|].
  exact (proj2 (proj2 (proj1 (@lookup_iff db_alice wf_db_alice) 7)) H).
Defined.

(** The session for the unknown key 42 is the one of [db_orphan]. *)
Lemma create_session_unknown_user_witness :
  wf empty_db
  /\ (forall u, In u (users empty_db) -> User.id u <> 42)
  /\ (forall s, In s (sessions empty_db) -> Session.token s <> "tok")
  /\ create_session 1000 "tok" 42 empty_db = (inl ValidationError, db_orphan).
Proof.
  split; [exact wf_empty_db|].
  assert (Hn : forall u, In u (users empty_db) -> User.id u <> 42).
  { intros u []. }
  assert (Hf : forall s, In s (sessions empty_db) -> Session.token s <> "tok").
  { intros s []. }
  split; [exact Hn|]. split; [exact Hf|].
  exact (proj1 (@create_session_unknown_user 1000 "tok" 42 empty_db
                  wf_empty_db Hn Hf)).
Defined.

(** A second sweep of [db_stale]. *)
Lemma sweep_idempotent_witness :
  unique_keys db_stale
  /\ 5000 <= 5000
  /\ cleanup_expired_sessions 5000 (store (cleanup_expired_sessions 5000 db_stale))
     = (inr 0, store (cleanup_expired_sessions 5000 db_stale)).
Proof.
  split; [exact (proj1 wf_db_stale)|].
  assert (Hle : 5000 <= 5000) by lia.
  split; [exact Hle|].
  exact (@sweep_idempotent 5000 5000 db_stale (proj1 wf_db_stale) Hle).
Defined.

(** Bob signs up with his 21-character phone number. *)
Lemma signup_over_limit_witness :
  wf empty_db
  /\ PhoneCountry_of_value "au" = inr au
  /\ (forall u, In u (users empty_db) -> User.email u <> strip "bob@example.com")
  /\ UserResponse.constraints
       (new_user 1000 (hash_password "s1" "pw12345678") bob empty_db) = false
  /\ outcome (signup 1000 1001 "s1" true "tok" req_plain "bob@example.com"
                "Bob" "Stone" "pw12345678" "pw12345678" "au"
                "012345678901234567890" empty_db)
     = inr (TemplateResponse "signup.html"
              [("request", VRequest); ("error", VStrOf ValidationError)]).
Proof.
  split; [exact wf_empty_db|]. split; [reflexivity|].
  assert (Hfree : forall u, In u (users empty_db) ->
                            User.email u <> strip "bob@example.com").
  { intros u []. }
  split; [exact Hfree|]. split; [reflexivity|].
  exact (f_equal fst
           (@signup_over_limit plain_hasher 1000 1001 "s1" true "tok" req_plain
              "bob@example.com" "Bob" "Stone" "pw12345678" "au"
              "012345678901234567890" au empty_db wf_empty_db eq_refl Hfree
              eq_refl)).
Defined.

(** ** The methods on stores with unique keys *)

Section UniqueKeysOnly.
Context {bcrypt : Hasher}.

(** [model_validate] as a function of the limits. *)
Lemma model_validate_cases (u : User.t) :
  UserResponse.model_validate u
  = if UserResponse.constraints u
    then inr (UserResponse.from_attributes u)
    else inl ValidationError.
Proof. reflexivity. Qed.

Lemma get_user_by_email_keys (email : string) (db : DB) :
  unique_keys db ->
  get_user_by_email email db
  = (match find (fun u => User.email u =? email) (users db) with
     | None => inr None
     | Some u =>
         if UserResponse.constraints u
         then inr (Some (UserResponse.from_attributes u))
         else inl ValidationError
     end, db).
Proof.
  intros Huk. unfold get_user_by_email.
  pose proof (user_by_email email Huk) as E. unfold bind in E |- *.
  unfold select_users in E |- *. rewrite E.
  destruct (find _ (users db)) as [u|]; [|reflexivity].
  unfold lift. rewrite model_validate_cases.
  destruct (UserResponse.constraints u); reflexivity.
Qed.

Lemma get_user_by_id_keys (user_id : Z) (db : DB) :
  unique_keys db ->
  get_user_by_id user_id db
  = (match find (fun u => (User.id u =? user_id)%Z) (users db) with
     | None => inr None
     | Some u =>
         if UserResponse.constraints u
         then inr (Some (UserResponse.from_attributes u))
         else inl ValidationError
     end, db).
Proof.
  intros Huk. unfold get_user_by_id.
  pose proof (user_by_id user_id Huk) as E. unfold bind in E |- *.
  unfold select_users in E |- *. rewrite E.
  destruct (find _ (users db)) as [u|]; [|reflexivity].
  unfold lift. rewrite model_validate_cases.
  destruct (UserResponse.constraints u); reflexivity.
Qed.

Lemma authenticate_user_keys (email password : string) (db : DB) :
  unique_keys db ->
  authenticate_user email password db
  = (match find (fun u => User.email u =? email) (users db) with
     | None => inr None
     | Some u =>
         if verify_password password (User.hashed_password u)
         then if UserResponse.constraints u
              then inr (Some (UserResponse.from_attributes u))
              else inl ValidationError
         else inr None
     end, db).
Proof.
  intros Huk. unfold authenticate_user.
  pose proof (user_by_email email Huk) as E. unfold bind in E |- *.
  unfold select_users in E |- *. rewrite E.
  destruct (find _ (users db)) as [u|]; [|reflexivity].
  destruct (verify_password password (User.hashed_password u)); simpl;
    [|reflexivity].
  unfold lift. rewrite model_validate_cases.
  destruct (UserResponse.constraints u); reflexivity.
Qed.

Lemma get_session_by_token_keys now token (db : DB) :
  unique_keys db ->
  get_session_by_token now token db
  = (match find (live now token) (sessions db) with
     | None => inr None
     | Some s =>
         match find (fun u => (User.id u =? Session.user_id s)%Z) (users db) with
         | None => inr None
         | Some u =>
             if UserResponse.constraints u
             then inr (Some (joined s u))
             else inl ValidationError
         end
     end, db).
Proof.
  intros Huk. unfold get_session_by_token, bind, select_sessions.
  fold (live now token).
  rewrite (@scalar_of_key _ _ Session.token (live now token) token);
    [|apply Huk|intros y Hy; now apply live_true in Hy].
  unfold ret at 1.
  destruct (find (live now token) (sessions db)) as [s|]; [|reflexivity].
  rewrite (get_user_by_id_keys (Session.user_id s) Huk).
  destruct (find _ (users db)) as [u|]; [|reflexivity].
  destruct (UserResponse.constraints u); reflexivity.
Qed.

Lemma create_user_keys now salt mail_ok d (db : DB) :
  unique_keys db ->
  create_user now salt mail_ok d db
  = match find (fun u => User.email u =? UserCreate.email d) (users db) with
    | Some u =>
        (if UserResponse.constraints u
         then inl (ValueError "Email already registered")
         else inl ValidationError, db)
    | None =>
        let row := new_user now (hash_password salt (UserCreate.password d)) d db in
        (UserResponse.model_validate row,
         mkDB (users db ++ [row]) (sessions db) (reset_tokens db))
    end.
Proof.
  intros Huk. unfold create_user, bind.
  rewrite (get_user_by_email_keys (UserCreate.email d) Huk).
  destruct (find _ (users db)) as [u|] eqn:Ef.
  - destruct (UserResponse.constraints u); reflexivity.
  - simpl. rewrite add_user_fresh.
    + unfold send_welcome_email, ret, lift, new_user. reflexivity.
    + intros u Hu. simpl. apply String.eqb_neq.
      apply (find_none _ _ Ef u Hu).
Qed.

(** [reset_password] is its read followed by its write. *)
Lemma reset_password_phases now salt mail_ok token new_password (db : DB) :
  reset_password now salt mail_ok token new_password db
  = bind (reset_password_read now token)
      (reset_password_write now salt mail_ok new_password) db.
Proof.
  unfold reset_password, reset_password_read, reset_password_write, bind,
    select_reset_tokens, select_users.
  destruct (filter _ (reset_tokens db)) as [|r [|r' l]]; try reflexivity.
  simpl. destruct (filter _ (users db)) as [|u [|u' l]]; reflexivity.
Qed.
End UniqueKeysOnly.

Section Cases.
Context {bcrypt : Hasher}.

(** C3, the code on every store with unique keys.  [authenticate_user]
    never writes.  It returns the view of an identity exactly when one has
    that very email, the password verifies, and the row is within the
    limits of the view; it returns [None] exactly when no identity has the
    email with a verifying password; and it raises [ValidationError]
    exactly when the identity exists and the password verifies but the row
    is over the limits, as the rows are that [create_user] persists for an
    over-long phone number or name. *)
Theorem authenticate_user_cases (email password : string) (db : DB)
    (Huk : unique_keys db) :
  let res := authenticate_user email password db in
  store res = db
  /\ (forall v,
         outcome res = inr (Some v)
         <-> exists u, In u (users db)
                       /\ User.email u = email
                       /\ verify_password password (User.hashed_password u) = true
                       /\ UserResponse.constraints u = true
                       /\ v = UserResponse.from_attributes u)
  /\ (outcome res = inr None
      <-> forall u, In u (users db) -> User.email u = email ->
                    verify_password password (User.hashed_password u) = false)
  /\ (outcome res = inl ValidationError
      <-> exists u, In u (users db)
                    /\ User.email u = email
                    /\ verify_password password (User.hashed_password u) = true
                    /\ UserResponse.constraints u = false).
Proof.
  intros res. subst res. rewrite (authenticate_user_keys email password Huk).
  unfold outcome, store; simpl.
  assert (Hsame : forall u x, In u (users db) -> User.email u = email ->
                    find (fun y => User.email y =? email) (users db) = Some x ->
                    x = u).
  { intros u x Hu He Hf. subst email.
    rewrite (find_user_by_email u Huk Hu) in Hf. congruence. }
  split; [reflexivity|].
  destruct (find (fun u => User.email u =? email) (users db)) as [x|] eqn:Ef.
  - apply find_some in Ef as Hx. destruct Hx as [Hx Hxe].
    apply String.eqb_eq in Hxe.
    destruct (verify_password password (User.hashed_password x)) eqn:Ev;
      [destruct (UserResponse.constraints x) eqn:Ec|].
    + split; [|split].
      * intros v. split.
        -- intros [= <-]. exists x. auto.
        -- intros (u & Hu & He & _ & _ & ->).
           now rewrite <- (Hsame u x Hu He eq_refl).
      * split; [discriminate|]. intros H. rewrite (H x Hx Hxe) in Ev.
        discriminate.
      * split; [discriminate|]. intros (u & Hu & He & _ & Hc).
        rewrite <- (Hsame u x Hu He eq_refl) in Hc. congruence.
    + split; [|split].
      * intros v. split; [discriminate|].
        intros (u & Hu & He & _ & Hc & _).
        rewrite <- (Hsame u x Hu He eq_refl) in Hc. congruence.
      * split; [discriminate|]. intros H. rewrite (H x Hx Hxe) in Ev.
        discriminate.
      * split; [|reflexivity]. intros _. exists x. auto.
    + split; [|split].
      * intros v. split; [discriminate|].
        intros (u & Hu & He & Hv & _).
        rewrite <- (Hsame u x Hu He eq_refl) in Hv. congruence.
      * split; [|reflexivity]. intros _ u Hu He.
        now rewrite <- (Hsame u x Hu He eq_refl).
      * split; [discriminate|]. intros (u & Hu & He & Hv & _).
        rewrite <- (Hsame u x Hu He eq_refl) in Hv. congruence.
  - assert (Hnone : forall u, In u (users db) -> User.email u <> email).
    { intros u Hu. apply String.eqb_neq. apply (find_none _ _ Ef u Hu). }
    split; [|split].
    + intros v. split; [discriminate|].
      intros (u & Hu & He & _). now apply Hnone in Hu.
    + split; [|reflexivity]. intros _ u Hu He. now apply Hnone in Hu.
    + split; [discriminate|]. intros (u & Hu & He & _). now apply Hnone in Hu.
Qed.

(** C4, as the code has it, for a session whose identity is within the
    limits of the view.  On a store with unique keys,
    [get_session_by_token] returns the session joined with the public view
    of its identity exactly when a stored session has that very token,
    expires strictly after the current time, and its owning identity is
    stored.  A missing session, an expired session and a session without
    identity all give the same [None], and the call writes to no table. *)
Theorem get_session_by_token_iff now token (db : DB) (Huk : unique_keys db)
    (Hvalid : forall s u,
        In s (sessions db) -> Session.token s = token ->
        In u (users db) -> User.id u = Session.user_id s ->
        UserResponse.constraints u = true) :
  let res := get_session_by_token now token db in
  (forall sr,
      outcome res = inr (Some sr)
      <-> exists s u, In s (sessions db)
                      /\ Session.token s = token
                      /\ now < Session.expires_at s
                      /\ In u (users db)
                      /\ User.id u = Session.user_id s
                      /\ sr = joined s u)
  /\ ((forall s, In s (sessions db) -> Session.token s <> token) ->
      outcome res = inr None)
  /\ (forall s, In s (sessions db) -> Session.token s = token ->
                Session.expires_at s <= now -> outcome res = inr None)
  /\ (forall s, In s (sessions db) -> Session.token s = token ->
                (forall u, In u (users db) -> User.id u <> Session.user_id s) ->
                outcome res = inr None)
  /\ (outcome res = inr None \/ exists sr, outcome res = inr (Some sr))
  /\ store res = db.
Proof.
  intros res.
  assert (Hres : res
                 = (inr match find (live now token) (sessions db) with
                        | None => None
                        | Some s =>
                            option_map (joined s)
                              (find (fun u => (User.id u =? Session.user_id s)%Z)
                                 (users db))
                        end, db)).
  { unfold res. rewrite (get_session_by_token_keys now token Huk).
    destruct (find (live now token) (sessions db)) as [s|] eqn:Es;
      [|reflexivity].
    destruct (find _ (users db)) as [u|] eqn:Eu; [|reflexivity].
    apply find_some in Es as [Hs Hl]. apply live_true in Hl as [Ht _].
    apply find_some in Eu as [Hu Hid]. apply Z.eqb_eq in Hid.
    now rewrite (Hvalid s u Hs Ht Hu Hid). }
  rewrite Hres. unfold outcome, store; simpl.
  assert (Hother : forall s, In s (sessions db) -> Session.token s = token ->
            forall x, In x (sessions db) -> live now token x = true -> x = s).
  { intros s Hs Ht x Hx Hl. apply live_true in Hl as [Hxt _].
    apply (key_injective Session.token (sessions db)); auto; [apply Huk|].
    congruence. }
  split; [|split; [|split; [|split; [|split]]]].
  - intros sr. split.
    + destruct (find (live now token) (sessions db)) as [s|] eqn:Es;
        [|discriminate].
      destruct (find _ (users db)) as [u|] eqn:Eu; [|discriminate].
      simpl. intros [= <-].
      apply find_some in Es as [Hs Hl]. apply live_true in Hl as [Ht Hlt].
      apply find_some in Eu as [Hu Hid]. apply Z.eqb_eq in Hid.
      exists s, u. auto 10.
    + intros (s & u & Hs & Ht & Hlt & Hu & Hid & ->).
      rewrite (find_live now token s Huk Hs); [|apply live_true; auto].
      rewrite <- Hid. now rewrite (find_user_by_id u Huk Hu).
  - intros Hnone. rewrite find_absent; [reflexivity|].
    intros x Hx. destruct (live now token x) eqn:E; [|reflexivity].
    apply live_true in E as [Ht _]. now apply Hnone in Hx.
  - intros s Hs Ht He. rewrite find_absent; [reflexivity|].
    intros x Hx. destruct (live now token x) eqn:E; [|reflexivity].
    rewrite (Hother s Hs Ht x Hx E) in E.
    apply live_true in E as [_ Hlt]. lia.
  - intros s Hs Ht Hnou.
    destruct (find (live now token) (sessions db)) as [x|] eqn:Ex;
      [|reflexivity].
    apply find_some in Ex as [Hx Hl]. rewrite (Hother s Hs Ht x Hx Hl).
    rewrite find_absent; [reflexivity|].
    intros u Hu. apply Z.eqb_neq. now apply Hnou.
  - destruct (find (live now token) (sessions db)) as [s|]; [|now left].
    destruct (find _ (users db)) as [u|]; [right; simpl; eauto|now left].
  - reflexivity.
Qed.

(** C6, the code on every store with unique keys.
    [create_password_reset_token] returns [false] and changes nothing when
    no identity has the email.  When one has and its row is within the
    limits of the view, a fresh token is persisted unconsumed, expiring one
    hour after the current time, and [true] is returned whether or not the
    mail went out.  When the row is over the limits the lookup raises
    [ValidationError]: no token is persisted and nothing is returned. *)
Theorem create_password_reset_token_cases now token email (db : DB)
    (Huk : unique_keys db) :
  ((forall u, In u (users db) -> User.email u <> email) ->
   forall mail_ok,
     create_password_reset_token now token mail_ok email db = (inr false, db))
  /\ (forall u,
        In u (users db) -> User.email u = email ->
        UserResponse.constraints u = true ->
        (forall r, In r (reset_tokens db) ->
                   PasswordResetToken.token r <> token) ->
        let r := new_reset_token now token (User.id u) db in
        PasswordResetToken.is_used r = false
        /\ PasswordResetToken.expires_at r = now + timedelta_hours 1
        /\ forall mail_ok,
             create_password_reset_token now token mail_ok email db
             = (inr true,
                mkDB (users db) (sessions db) (reset_tokens db ++ [r])))
  /\ (forall u,
        In u (users db) -> User.email u = email ->
        UserResponse.constraints u = false ->
        forall mail_ok,
          create_password_reset_token now token mail_ok email db
          = (inl ValidationError, db)).
Proof.
  split; [|split].
  - intros Hnone mail_ok. unfold create_password_reset_token, bind.
    rewrite (get_user_by_email_keys email Huk).
    rewrite find_absent; [reflexivity|].
    intros x Hx. apply String.eqb_neq. now apply Hnone.
  - intros u Hu He Hc Hfresh r.
    split; [reflexivity|]. split; [reflexivity|].
    intros mail_ok. unfold create_password_reset_token, bind.
    rewrite (get_user_by_email_keys email Huk). subst email.
    rewrite (find_user_by_email u Huk Hu), Hc. simpl.
    rewrite add_reset_token_fresh; [|exact Hfresh].
    unfold send_password_reset_email, ret. now destruct mail_ok.
  - intros u Hu He Hc mail_ok. unfold create_password_reset_token, bind.
    rewrite (get_user_by_email_keys email Huk). subst email.
    now rewrite (find_user_by_email u Huk Hu), Hc.
Qed.

(** C8, the code on every store with unique keys.  For a stored identity
    and a fresh token, [create_session] persists a session that expires
    exactly 24 hours after the current time.  When the identity's row is
    within the limits of the view the session is returned joined with the
    view, and resolving the token before the expiry returns the same; when
    the row is over the limits the session is committed all the same, but
    [create_session] raises [ValidationError], and so does every resolution
    of the token before the expiry. *)
Theorem create_then_resolve_cases now token (db : DB) (u : User.t)
    (Huk : unique_keys db) (Hu : In u (users db))
    (Hfresh : forall s, In s (sessions db) -> Session.token s <> token) :
  let s := new_session now token (User.id u) db in
  let db' := mkDB (users db) (sessions db ++ [s]) (reset_tokens db) in
  Session.expires_at s = now + timedelta_hours 24
  /\ (UserResponse.constraints u = true ->
      create_session now token (User.id u) db = (inr (joined s u), db')
      /\ SessionResponse.user (joined s u) = UserResponse.from_attributes u
      /\ (forall now', now' < Session.expires_at s ->
            get_session_by_token now' token db' = (inr (Some (joined s u)), db'))
      /\ get_session_by_token now token db' = (inr (Some (joined s u)), db'))
  /\ (UserResponse.constraints u = false ->
      create_session now token (User.id u) db = (inl ValidationError, db')
      /\ (forall now', now' < Session.expires_at s ->
            get_session_by_token now' token db' = (inl ValidationError, db'))).
Proof.
  intros s db'.
  assert (Huk' : unique_keys db').
  { pose proof (@unique_keys_add_session
                  (fun id => Session.mk id token (User.id u) now
                               (now + timedelta_hours 24))
                  (fun n => eq_refl) db Huk) as H.
    rewrite add_session_fresh in H; [exact H|exact Hfresh]. }
  assert (Hcreate : create_session now token (User.id u) db
                    = (if UserResponse.constraints u
                       then inr (joined s u) else inl ValidationError, db')).
  { unfold create_session, bind.
    rewrite add_session_fresh; [|exact Hfresh].
    fold (new_session now token (User.id u) db). fold s. fold db'.
    rewrite (get_user_by_id_keys (User.id u) Huk'). simpl.
    rewrite (find_user_by_id u Huk Hu).
    destruct (UserResponse.constraints u); reflexivity. }
  assert (Hresolve : forall now', now' < Session.expires_at s ->
             get_session_by_token now' token db'
             = (if UserResponse.constraints u
                then inr (Some (joined s u)) else inl ValidationError, db')).
  { intros now' Hlt. rewrite (get_session_by_token_keys now' token Huk').
    rewrite (find_live now' token s Huk').
    - change (Session.user_id s) with (User.id u). simpl.
      now rewrite (find_user_by_id u Huk Hu).
    - simpl. apply in_or_app. right. now left.
    - apply live_true. split; [reflexivity|exact Hlt]. }
  split; [reflexivity|]. split.
  - intros Hc. rewrite Hc in Hcreate, Hresolve.
    split; [exact Hcreate|]. split; [reflexivity|].
    split; [exact Hresolve|].
    apply Hresolve. simpl. unfold timedelta_hours. lia.
  - intros Hc. rewrite Hc in Hcreate, Hresolve. split; assumption.
Qed.

(** X7. Signup persists nothing when the confirmation differs from the
    password, when the country is neither [au] nor [ph], or when an
    identity already has the email with its surrounding blanks removed.
    Each case has its own page: for a taken email the text "Email already
    registered" when the identity that holds it is within the limits of
    the view, and the text of the validation error when it is not. *)
Theorem signup_rejects now now' salt mail_ok token request
    email first_name last_name password confirm_password
    phone_country phone_number (db : DB) (Huk : unique_keys db) :
  let res := signup now now' salt mail_ok token request email first_name
               last_name password confirm_password phone_country
               phone_number db in
  (password <> confirm_password ->
   res = (inr (TemplateResponse "signup.html"
                 [("request", VRequest);
                  ("error", VStr "Passwords do not match. Please try again.")]),
          db))
  /\ (password = confirm_password ->
      phone_country <> "au" -> phone_country <> "ph" ->
      res = (inr (TemplateResponse "signup.html"
                    [("request", VRequest);
                     ("error",
                      VStr "Invalid country selected. Please try again.")]),
             db))
  /\ (password = confirm_password ->
      phone_country = "au" \/ phone_country = "ph" ->
      forall u, In u (users db) -> User.email u = strip email ->
      res = (inr (TemplateResponse "signup.html"
                    [("request", VRequest);
                     ("error",
                      if UserResponse.constraints u
                      then VStr "Email already registered"
                      else VStrOf ValidationError)]),
             db)).
Proof.
  intros res. subst res. unfold signup, try_except.
  split; [|split].
  - intros Hne. apply String.eqb_neq in Hne. now rewrite Hne.
  - intros -> Hau Hph. rewrite String.eqb_refl. simpl.
    unfold PhoneCountry_of_value.
    apply String.eqb_neq in Hau, Hph. now rewrite Hau, Hph.
  - intros -> Hpc u Hu He. rewrite String.eqb_refl. simpl.
    assert (Hc : exists c, PhoneCountry_of_value phone_country = inr c).
    { destruct Hpc as [->| ->]; eexists; reflexivity. }
    destruct Hc as [c ->]. unfold bind.
    rewrite (create_user_keys now salt mail_ok _ Huk). simpl.
    rewrite <- He. rewrite (find_user_by_email u Huk Hu).
    destruct (UserResponse.constraints u); reflexivity.
Qed.
End Cases.

(** ** The case theorems at concrete stores *)

Lemma unique_keys_db_bob : unique_keys db_bob.
Proof. constructor; simpl; nodup_closed. Qed.

(** C1, as stated, fails for calls that overlap.  Two calls with carol's
    token [T], each reading the token row before the other commits, both
    return [true]: the second commit overwrites the credential the first
    one set.  By [reset_password_phases] each call alone is
    [reset_password]. *)
Lemma reset_password_overlap_counterexample :
  unique_keys db_carol
  /\ outcome (reset_password_overlapped "T"
                2500 "s3" true "newpass1234"
                2501 "s4" true "otherpass99" db_carol)
     = inr (true, true)
  /\ map User.hashed_password
       (users (store (reset_password_overlapped "T"
                        2500 "s3" true "newpass1234"
                        2501 "s4" true "otherpass99" db_carol)))
     = [hash_password "s4" "otherpass99"].
Proof.
  split; [exact (proj1 wf_db_carol)|]. split; reflexivity.
Qed.

(** Bob, registered by the call that raised, cannot authenticate. *)
Lemma authenticate_user_cases_witness :
  create_user 1000 "s1" true bob empty_db = (inl ValidationError, db_bob)
  /\ unique_keys db_bob
  /\ outcome (authenticate_user "bob@example.com" "pw12345678" db_bob)
     = inl ValidationError.
Proof.
  split; [reflexivity|]. split; [exact unique_keys_db_bob|].
  apply (proj2 (proj2 (proj2 (@authenticate_user_cases plain_hasher
                                "bob@example.com" "pw12345678" db_bob
                                unique_keys_db_bob)))).
  exists bob_row.
  split; [left; reflexivity|]. split; [reflexivity|].
  split; reflexivity.
Defined.

(** Alice's session resolves to her. *)
Lemma get_session_by_token_iff_witness :
  unique_keys db_session
  /\ (forall s u,
         In s (sessions db_session) -> Session.token s = "tok" ->
         In u (users db_session) -> User.id u = Session.user_id s ->
         UserResponse.constraints u = true)
  /\ outcome (get_session_by_token 2000 "tok" db_session)
     = inr (Some (joined (Session.mk 1 "tok" 1 1000 (1000 + timedelta_hours 24))
                    alice_row)).
Proof.
  split; [exact (proj1 wf_db_session)|].
  assert (Hv : forall s u,
             In s (sessions db_session) -> Session.token s = "tok" ->
             In u (users db_session) -> User.id u = Session.user_id s ->
             UserResponse.constraints u = true).
  { intros s u _ _ [<-|[]] _. reflexivity. }
  split; [exact Hv|].
  apply (proj1 (@get_session_by_token_iff 2000 "tok" db_session
                  (proj1 wf_db_session) Hv)).
  exists (Session.mk 1 "tok" 1 1000 (1000 + timedelta_hours 24)), alice_row.
  split; [left; reflexivity|]. split; [reflexivity|].
  split; [reflexivity|]. split; [left; reflexivity|].
  split; reflexivity.
Defined.

(** A reset request for bob's email raises and persists no token. *)
Lemma create_password_reset_token_cases_witness :
  unique_keys db_bob
  /\ In bob_row (users db_bob)
  /\ UserResponse.constraints bob_row = false
  /\ create_password_reset_token 2000 "T" true "bob@example.com" db_bob
     = (inl ValidationError, db_bob).
Proof.
  split; [exact unique_keys_db_bob|].
  assert (Hu : In bob_row (users db_bob)) by (left; reflexivity).
  split; [exact Hu|]. split; [reflexivity|].
  exact (proj2 (proj2 (@create_password_reset_token_cases 2000 "T"
                         "bob@example.com" db_bob unique_keys_db_bob))
           bob_row Hu eq_refl eq_refl true).
Defined.

(** A session for bob is committed and [create_session] raises. *)
Lemma create_then_resolve_cases_witness :
  unique_keys db_bob
  /\ In bob_row (users db_bob)
  /\ (forall s, In s (sessions db_bob) -> Session.token s <> "tok")
  /\ UserResponse.constraints bob_row = false
  /\ create_session 2000 "tok" 1 db_bob
     = (inl ValidationError,
        mkDB [bob_row] [Session.mk 1 "tok" 1 2000 (2000 + timedelta_hours 24)] [])
  /\ get_session_by_token 2000 "tok"
       (mkDB [bob_row] [Session.mk 1 "tok" 1 2000 (2000 + timedelta_hours 24)] [])
     = (inl ValidationError,
        mkDB [bob_row] [Session.mk 1 "tok" 1 2000 (2000 + timedelta_hours 24)] []).
Proof.
  split; [exact unique_keys_db_bob|].
  assert (Hu : In bob_row (users db_bob)) by (left; reflexivity).
  assert (Hf : forall s, In s (sessions db_bob) -> Session.token s <> "tok").
  { intros s []. }
  split; [exact Hu|]. split; [exact Hf|]. split; [reflexivity|].
  pose (H := proj2 (proj2 (@create_then_resolve_cases 2000 "tok" db_bob bob_row
                             unique_keys_db_bob Hu Hf)) eq_refl).
  split; [exact (proj1 H)|].
  exact (proj2 H 2000 eq_refl).
Defined.

(** A signup under alice's email, with blanks around it. *)
Lemma signup_rejects_witness :
  unique_keys db_alice
  /\ In alice_row (users db_alice)
  /\ User.email alice_row = strip " alice@example.com "
  /\ signup 2000 2001 "s5" true "tok" req_plain " alice@example.com " "Al"
       "Lidl" "pw12345678" "pw12345678" "au" "0400000000" db_alice
     = (inr (TemplateResponse "signup.html"
               [("request", VRequest);
                ("error", VStr "Email already registered")]), db_alice).
Proof.
  split; [exact (proj1 wf_db_alice)|].
  assert (Hu : In alice_row (users db_alice)) by (left; reflexivity).
  split; [exact Hu|]. split; [reflexivity|].
  exact (proj2 (proj2 (@signup_rejects plain_hasher 2000 2001 "s5" true "tok"
                         req_plain " alice@example.com " "Al" "Lidl"
                         "pw12345678" "pw12345678" "au" "0400000000" db_alice
                         (proj1 wf_db_alice)))
           eq_refl (or_introl eq_refl) alice_row Hu eq_refl).
Defined.
